(** * The OGL example pages: frame driver and resize handler

    Four example pages are embedded here: point lighting
    ([src/examples/point-lighting/index.ts]), indexed against non-indexed
    geometry, sorted transparency and instancing.  Each page is a script that
    runs once and leaves handlers behind; the host then calls those handlers
    on its events.  The page state is passed explicitly and every handler is
    a function on it.

    JavaScript numbers are IEEE 754 binary64 values, so they are Rocq's
    primitive floats; [Float32Array] storage rounds to binary32. *)

From Stdlib Require Import ZArith String List Bool Lia Floats.
Import ListNotations.

Set Warnings "-inexact-float".

Local Open Scope string_scope.
Local Open Scope list_scope.
Local Open Scope float_scope.

(** ** Numbers and typed arrays *)

Definition number : Set := float.

(** [Math.fround]: the binary32 value nearest to a number, as a number.
    Storing into a [Float32Array] applies it to every element. *)
Definition fround (v : number) : number :=
  match Prim2SF v with
  | S754_finite s m e => SF2Prim (binary_round 24 128 s m e)
  | _ => v
  end.

Inductive TypedArray :=
| F32 (elements : list number)
| U16 (elements : list Z).

(** [new Float32Array([...])] and [new Uint16Array([...])]. *)
Definition Float32Array (l : list number) : TypedArray := F32 (map fround l).
Definition Uint16Array (l : list Z) : TypedArray :=
  U16 (map (fun i => (i mod 65536)%Z) l).

(** [new Float32Array(n)]: [n] zeros. *)
Definition Float32Array_zeros (n : nat) : list number := repeat 0 n.

(** [arr.set(values, offset)] on a [Float32Array]: the values are rounded and
    written from [offset] on; a write that does not fit raises a RangeError
    ([None]). *)
Definition f32_set (values : list number) (offset : nat) (arr : list number)
  : option (list number) :=
  if (offset + length values <=? length arr)%nat
  then Some (firstn offset arr ++ map fround values
             ++ skipn (offset + length values) arr)
  else None.

(** ** The rendering library

    The pages import [Renderer], [Camera], [Transform], [Geometry],
    [Program], [Mesh], [Texture], [Orbit] and the shape constructors from the
    library; the library's own files are not among the sources read here, so
    the classes below carry what the specification says of them. *)

Module Vec3.
Record t := mk { x : number; y : number; z : number }.
Definition zero : t := mk 0 0 0.
Definition over_x (f : number -> number) (v : t) : t := mk (f (x v)) (y v) (z v).
Definition over_y (f : number -> number) (v : t) : t := mk (x v) (f (y v)) (z v).
Definition over_z (f : number -> number) (v : t) : t := mk (x v) (y v) (f (z v)).
End Vec3.

Module Canvas.
Record t := mk { width : number; height : number }.
End Canvas.

Module Renderer.
Record t := mk { dpr : option number; canvas : Canvas.t }.

(** Modelled from the spec: the constructor [new Renderer(options)] of the
    library (not among the sources).  It yields a drawing context with its
    canvas; a fresh canvas element has the host's default size. *)
Definition create (dpr : option number) : t := mk dpr (Canvas.mk 300 150).

Definition buffer (r : t) (css : number) : number :=
  match dpr r with
  | Some d => css * d
  | None => css
  end.

(** Modelled from the spec: [renderer.setSize(width, height)] of the
    library (not among the sources) resizes the drawing buffer to match
    the given size, scaled by the device-pixel ratio the renderer was
    constructed with. *)
Definition setSize (width height : number) (r : t) : t :=
  mk (dpr r) (Canvas.mk (buffer r width) (buffer r height)).
End Renderer.

Module Camera.
(** [fov] is the option the camera was constructed with, if any; [aspect] is
    the aspect ratio last passed to [perspective], if any. *)
Record t := mk {
  fov : option number;
  aspect : option number;
  position : Vec3.t;
  rotation : Vec3.t
}.

(** Modelled from the spec: [new Camera(gl, {fov})] of the library (not
    among the sources) yields a camera handle with mutable position and
    rotation; no aspect has been passed to it yet. *)
Definition create (fov : option number) : t := mk fov None Vec3.zero Vec3.zero.

(** Modelled from the spec: [camera.perspective({aspect})] of the library
    (not among the sources) recomputes the projection for the aspect ratio
    it is passed; the other projection parameters stay as they are. *)
Definition perspective (a : number) (c : t) : t :=
  mk (fov c) (Some a) (position c) (rotation c).

(** What the projection is computed from. *)
Definition projection (c : t) : option number * option number := (fov c, aspect c).

Definition over_position (f : Vec3.t -> Vec3.t) (c : t) : t :=
  mk (fov c) (aspect c) (f (position c)) (rotation c).
Definition over_rotation (f : Vec3.t -> Vec3.t) (c : t) : t :=
  mk (fov c) (aspect c) (position c) (f (rotation c)).
End Camera.

Module Geometry.
Record Attribute := attr {
  instanced : option nat;
  size : nat;
  data : TypedArray
}.

(** A geometry is either one of the library's shapes, built from its
    options, or the attribute map the page passes to [new Geometry]. *)
Inductive t :=
| Sphere (widthSegments : number)
| Plane (widthSegments heightSegments : number)
| Buffers (attributes : list (string * Attribute)).

Definition attribute (name : string) (g : t) : option Attribute :=
  match g with
  | Buffers attrs =>
      option_map snd (find (fun kv => String.eqb (fst kv) name) attrs)
  | _ => None
  end.
End Geometry.

Module Mesh.
Record t := mk {
  geometry : nat;
  position : Vec3.t;
  rotation : Vec3.t;
  scale : Vec3.t;
  speed : option number
}.

(** Modelled from the spec: [new Mesh(gl, {geometry, program})] of the
    library (not among the sources) yields a scene-graph node with a
    position, rotation and scale, referring to one geometry. *)
Definition create (geometry : nat) : t :=
  mk geometry Vec3.zero Vec3.zero (Vec3.mk 1 1 1) None.

Definition over_position (f : Vec3.t -> Vec3.t) (m : t) : t :=
  mk (geometry m) (f (position m)) (rotation m) (scale m) (speed m).
Definition over_rotation (f : Vec3.t -> Vec3.t) (m : t) : t :=
  mk (geometry m) (position m) (f (rotation m)) (scale m) (speed m).
Definition set_scale (v : Vec3.t) (m : t) : t :=
  mk (geometry m) (position m) (rotation m) v (speed m).
Definition set_speed (v : number) (m : t) : t :=
  mk (geometry m) (position m) (rotation m) (scale m) (Some v).
End Mesh.

Module Transform.
(** The scene root: its own rotation and the meshes attached to it, by
    reference. *)
Record t := mk { rotation : Vec3.t; children : list nat }.
Definition create : t := mk Vec3.zero [].

(** Modelled from the spec: [mesh.setParent(scene)] of the library (not
    among the sources) attaches the mesh to the parent transform. *)
Definition addChild (child : nat) (p : t) : t :=
  if existsb (Nat.eqb child) (children p) then p
  else mk (rotation p) (children p ++ [child]).

Definition over_rotation (f : Vec3.t -> Vec3.t) (p : t) : t :=
  mk (f (rotation p)) (children p).
End Transform.

Module Texture.
(** [image] is the image element assigned to the texture, if any. *)
Record t := mk { image : option nat; repeat : bool }.
End Texture.

(** A value held by [program.uniforms.<name>.value]. *)
Inductive Uniform :=
| UNumber (v : number)
| UVec3 (v : Vec3.t)
| UArray (v : list number)
| UTexture (texture : nat)
| UColor (hex : string).

(** ** The host page *)

Module Window.
Record t := mk { innerWidth : number; innerHeight : number }.
End Window.

(** The only handler the pages ever assign to an image element is the arrow
    function [() => texture.image = img]. *)
Inductive Handler := AssignImage (texture : nat).

Inductive ImageStatus := Loading | Loaded | Broken.

Module Image.
Record t := mk {
  src : string;
  onload : option Handler;
  onerror : option Handler;
  status : ImageStatus
}.
Definition set_status (st : ImageStatus) (i : t) : t :=
  mk (src i) (onload i) (onerror i) st.
End Image.

(** The function handed to [requestAnimationFrame], and the functions handed
    to [addEventListener]. *)
Inductive Callback := Update.
Inductive Listener := Resize | LightFollowsMouse.

(** Where the asynchronous [loadModel] stands: not called, suspended at
    [await fetch(...)], suspended at [await (...).json()], run to its end, or
    rejected. *)
Inductive LoadStage := NotCalled | AwaitingFetch | AwaitingJson | Fulfilled | Rejected.

(** The parsed body of [acorn.json]. *)
Module ModelData.
Record t := mk { position : list number; uv : list number; normal : list number }.
End ModelData.

(** What [renderer.render({scene, camera})] is asked to draw: the scene root
    with the meshes it reaches, and the camera, as they are at the call. *)
Record Request := request {
  drawn_scene : Transform.t;
  drawn_objects : list Mesh.t;
  drawn_camera : Camera.t
}.

(** The state of a page.  [objects], [geometries], [textures] and [images]
    hold the objects the script has constructed; a reference to one is its
    index.  [mesh] and [meshes] are the script's variables of those names.
    [frames] is the host's list of pending animation-frame callbacks,
    [requests] the render requests issued so far, [console] what the page
    has reported. *)
Record State := mkState {
  window : Window.t;
  renderer : Renderer.t;
  camera : Camera.t;
  scene : Transform.t;
  objects : list Mesh.t;
  geometries : list Geometry.t;
  uniforms : list (string * Uniform);
  textures : list Texture.t;
  images : list Image.t;
  mesh : option nat;
  meshes : list nat;
  loading : LoadStage;
  frames : list Callback;
  listeners : list (string * Listener);
  requests : list Request;
  console : list string
}.

Definition set_window (v : Window.t) (s : State) : State :=
  mkState v (renderer s) (camera s) (scene s) (objects s) (geometries s) (uniforms s)
          (textures s) (images s) (mesh s) (meshes s) (loading s) (frames s)
          (listeners s) (requests s) (console s).

Definition set_renderer (v : Renderer.t) (s : State) : State :=
  mkState (window s) v (camera s) (scene s) (objects s) (geometries s) (uniforms s)
          (textures s) (images s) (mesh s) (meshes s) (loading s) (frames s)
          (listeners s) (requests s) (console s).

Definition set_camera (v : Camera.t) (s : State) : State :=
  mkState (window s) (renderer s) v (scene s) (objects s) (geometries s) (uniforms s)
          (textures s) (images s) (mesh s) (meshes s) (loading s) (frames s)
          (listeners s) (requests s) (console s).

Definition set_scene (v : Transform.t) (s : State) : State :=
  mkState (window s) (renderer s) (camera s) v (objects s) (geometries s) (uniforms s)
          (textures s) (images s) (mesh s) (meshes s) (loading s) (frames s)
          (listeners s) (requests s) (console s).

Definition set_objects (v : list Mesh.t) (s : State) : State :=
  mkState (window s) (renderer s) (camera s) (scene s) v (geometries s) (uniforms s)
          (textures s) (images s) (mesh s) (meshes s) (loading s) (frames s)
          (listeners s) (requests s) (console s).

Definition set_geometries (v : list Geometry.t) (s : State) : State :=
  mkState (window s) (renderer s) (camera s) (scene s) (objects s) v (uniforms s)
          (textures s) (images s) (mesh s) (meshes s) (loading s) (frames s)
          (listeners s) (requests s) (console s).

Definition set_uniforms (v : list (string * Uniform)) (s : State) : State :=
  mkState (window s) (renderer s) (camera s) (scene s) (objects s) (geometries s) v
          (textures s) (images s) (mesh s) (meshes s) (loading s) (frames s)
          (listeners s) (requests s) (console s).

Definition set_textures (v : list Texture.t) (s : State) : State :=
  mkState (window s) (renderer s) (camera s) (scene s) (objects s) (geometries s)
          (uniforms s) v (images s) (mesh s) (meshes s) (loading s) (frames s)
          (listeners s) (requests s) (console s).

Definition set_images (v : list Image.t) (s : State) : State :=
  mkState (window s) (renderer s) (camera s) (scene s) (objects s) (geometries s)
          (uniforms s) (textures s) v (mesh s) (meshes s) (loading s) (frames s)
          (listeners s) (requests s) (console s).

Definition set_mesh (v : option nat) (s : State) : State :=
  mkState (window s) (renderer s) (camera s) (scene s) (objects s) (geometries s)
          (uniforms s) (textures s) (images s) v (meshes s) (loading s) (frames s)
          (listeners s) (requests s) (console s).

Definition set_meshes (v : list nat) (s : State) : State :=
  mkState (window s) (renderer s) (camera s) (scene s) (objects s) (geometries s)
          (uniforms s) (textures s) (images s) (mesh s) v (loading s) (frames s)
          (listeners s) (requests s) (console s).

Definition set_loading (v : LoadStage) (s : State) : State :=
  mkState (window s) (renderer s) (camera s) (scene s) (objects s) (geometries s)
          (uniforms s) (textures s) (images s) (mesh s) (meshes s) v (frames s)
          (listeners s) (requests s) (console s).

Definition set_frames (v : list Callback) (s : State) : State :=
  mkState (window s) (renderer s) (camera s) (scene s) (objects s) (geometries s)
          (uniforms s) (textures s) (images s) (mesh s) (meshes s) (loading s) v
          (listeners s) (requests s) (console s).

Definition set_listeners (v : list (string * Listener)) (s : State) : State :=
  mkState (window s) (renderer s) (camera s) (scene s) (objects s) (geometries s)
          (uniforms s) (textures s) (images s) (mesh s) (meshes s) (loading s)
          (frames s) v (requests s) (console s).

Definition set_requests (v : list Request) (s : State) : State :=
  mkState (window s) (renderer s) (camera s) (scene s) (objects s) (geometries s)
          (uniforms s) (textures s) (images s) (mesh s) (meshes s) (loading s)
          (frames s) (listeners s) v (console s).

(** The state a script starts from: the window at its size and nothing
    constructed but the renderer and the camera of the script's first
    lines. *)
Definition page (w h : number) (r : Renderer.t) (c : Camera.t) : State :=
  mkState (Window.mk w h) r c Transform.create [] [] [] [] [] None [] NotCalled
          [] [] [] [].

(** [l] with [f] applied to the element at index [i]. *)
Fixpoint over_nth {A : Type} (i : nat) (f : A -> A) (l : list A) : list A :=
  match l, i with
  | [], _ => []
  | a :: l', O => f a :: l'
  | a :: l', S i' => a :: over_nth i' f l'
  end.

(** Operations of the host and of the library on the page state. *)

Definition requestAnimationFrame (cb : Callback) (s : State) : State :=
  set_frames (frames s ++ [cb]) s.

Definition addEventListener (type : string) (l : Listener) (s : State) : State :=
  set_listeners (listeners s ++ [(type, l)]) s.

(** Modelled from the spec: [renderer.render({scene, camera})] of the
    library (not among the sources) draws one frame of the scene seen from
    the camera; here it records the request. *)
Definition render (s : State) : State :=
  set_requests (requests s ++ [request (scene s) (objects s) (camera s)]) s.

Definition new_geometry (g : Geometry.t) (s : State) : nat * State :=
  (length (geometries s), set_geometries (geometries s ++ [g]) s).

Definition new_mesh (geometry : nat) (s : State) : nat * State :=
  (length (objects s), set_objects (objects s ++ [Mesh.create geometry]) s).

Definition new_texture (repeat : bool) (s : State) : nat * State :=
  (length (textures s), set_textures (textures s ++ [Texture.mk None repeat]) s).

(** [const img = new Image(); img.onload = h; img.src = src]: the image
    starts loading with [h] as its only handler. *)
Definition new_image (src : string) (h : Handler) (s : State) : State :=
  set_images (images s ++ [Image.mk src (Some h) None Loading]) s.

Definition over_object (r : nat) (f : Mesh.t -> Mesh.t) (s : State) : State :=
  set_objects (over_nth r f (objects s)) s.

Definition setParent (child : nat) (s : State) : State :=
  set_scene (Transform.addChild child (scene s)) s.

Definition set_uniform (name : string) (v : Uniform) (s : State) : State :=
  set_uniforms
    (map (fun kv => if String.eqb (fst kv) name then (fst kv, v) else kv)
         (uniforms s)) s.

Definition run_handler (h : option Handler) (img : nat) (s : State) : State :=
  match h with
  | Some (AssignImage tx) =>
      set_textures
        (over_nth tx (fun t => Texture.mk (Some img) (Texture.repeat t)) (textures s)) s
  | None => s
  end.

(** ** Events and their dispatch *)

Inductive Event :=
| AnimationFrame (timestamp : number)
| WindowResize (innerWidth innerHeight : number)
| DocumentMouseMove (x y : number)
| ImageLoad (img : nat)
| ImageError (img : nat)
| FetchSettled (ok : bool)
| JsonSettled (data : option ModelData.t).

(** What a script leaves behind for the host to call: the frame callback,
    the resize listener, the mouse-move listener and the rest of [loadModel]
    after its awaits ([None] when it throws). *)
Record Script := mkScript {
  update : number -> State -> State;
  resize : State -> State;
  mousemove : number -> number -> State -> State;
  loadModel_resume : ModelData.t -> State -> option State
}.

Definition call_listener (p : Script) (e : Event) (l : Listener) (s : State) : State :=
  match l, e with
  | Resize, _ => resize p s
  | LightFollowsMouse, DocumentMouseMove x y => mousemove p x y s
  | LightFollowsMouse, _ => s
  end.

Definition fire (p : Script) (type : string) (e : Event) (s : State) : State :=
  fold_left
    (fun s nl => if String.eqb (fst nl) type then call_listener p e (snd nl) s else s)
    (listeners s) s.

Definition settle_image (i : nat) (st : ImageStatus) (s : State) : State :=
  set_images (over_nth i (Image.set_status st) (images s)) s.

(** The host takes the pending frame callbacks, empties the list, and calls
    each with the timestamp; listeners run in registration order; an image
    or a promise settles once. *)
Definition dispatch (p : Script) (e : Event) (s : State) : State :=
  match e with
  | AnimationFrame t =>
      fold_left (fun s cb => match cb with Update => update p t s end)
                (frames s) (set_frames [] s)
  | WindowResize w h => fire p "resize" e (set_window (Window.mk w h) s)
  | DocumentMouseMove _ _ => fire p "mousemove" e s
  | ImageLoad i =>
      match nth_error (images s) i with
      | Some img =>
          match Image.status img with
          | Loading => run_handler (Image.onload img) i (settle_image i Loaded s)
          | _ => s
          end
      | None => s
      end
  | ImageError i =>
      match nth_error (images s) i with
      | Some img =>
          match Image.status img with
          | Loading => run_handler (Image.onerror img) i (settle_image i Broken s)
          | _ => s
          end
      | None => s
      end
  | FetchSettled ok =>
      match loading s with
      | AwaitingFetch => set_loading (if ok then AwaitingJson else Rejected) s
      | _ => s
      end
  | JsonSettled d =>
      match loading s with
      | AwaitingJson =>
          match d with
          | Some data =>
              match loadModel_resume p data s with
              | Some s' => set_loading Fulfilled s'
              | None => set_loading Rejected s
              end
          | None => set_loading Rejected s
          end
      | _ => s
      end
  end.

Definition run (p : Script) (es : list Event) (s : State) : State :=
  fold_left (fun s e => dispatch p e s) es s.

Definition no_mousemove (x y : number) (s : State) : State := s.
Definition no_model (data : ModelData.t) (s : State) : option State := Some s.

(** ** Point lighting ([src/examples/point-lighting/index.ts]) *)

Module PointLighting.
Section Controls.

(** Modelled from the spec: [controls.update()] of the library's [Orbit]
    (not among the sources) steers the camera it was constructed with;
    what it does to the camera each frame is left open. *)
Variable orbit : Camera.t -> Camera.t.

(** [const mesh]: the page's only mesh, the first object constructed. *)
Definition mesh : nat := 0.

Definition resize (s : State) : State :=
  let s := set_renderer
             (Renderer.setSize (Window.innerWidth (window s))
                               (Window.innerHeight (window s)) (renderer s)) s in
  set_camera
    (Camera.perspective
       (Canvas.width (Renderer.canvas (renderer s))
        / Canvas.height (Renderer.canvas (renderer s)))
       (camera s)) s.

Definition mousemove (x y : number) (s : State) : State :=
  let cords_x := x - Window.innerWidth (window s) / 2 in
  let cords_y := y - Window.innerHeight (window s) / 2 in
  set_uniform "u_lightWorldPosition" (UArray [cords_x; - cords_y; 40]) s.

Definition update (dt : number) (s : State) : State :=
  let s := requestAnimationFrame Update s in
  let s := over_object mesh (Mesh.over_rotation (Vec3.over_y (fun a => a + 0.005))) s in
  let s := set_uniform "u_dt" (UNumber ((- dt) * 0.00002)) s in
  let s := set_camera (orbit (camera s)) s in
  render s.

(** The script, run in a window of the given size. *)
Definition setup (w h : number) : State :=
  let s := page w h (Renderer.create None)
                (Camera.over_position (fun _ => Vec3.mk 0 0 2) (Camera.create None)) in
  let s := addEventListener "resize" Resize s in
  let s := resize s in
  let '(geometry, s) := new_geometry (Geometry.Sphere 64) s in
  let light := Vec3.mk 20 30 60 in
  let '(colMap, s) := new_texture false s in
  let s := new_image "../../assets/earth.jpg" (AssignImage colMap) s in
  let '(specMap, s) := new_texture false s in
  let s := new_image "../../assets/earth_specular.jpg" (AssignImage specMap) s in
  let '(cloudMap, s) := new_texture true s in
  let s := new_image "../../assets/earth_cloud.jpg" (AssignImage cloudMap) s in
  let s := set_uniforms
             [("u_dt", UNumber 0);
              ("u_lightWorldPosition", UVec3 light);
              ("u_shininess", UNumber 1.5);
              ("colMap", UTexture colMap);
              ("specMap", UTexture specMap);
              ("cloudMap", UTexture cloudMap)] s in
  let '(mesh, s) := new_mesh geometry s in
  let s := setParent mesh s in
  let s := addEventListener "mousemove" LightFollowsMouse s in
  requestAnimationFrame Update s.

Definition script : Script := mkScript update resize mousemove no_model.

End Controls.
End PointLighting.

(** ** Indexed against non-indexed geometry ([src/unnamed/part_000]) *)

Module IndexedVsNonIndexed.

Definition resize (s : State) : State :=
  let s := set_renderer
             (Renderer.setSize (Window.innerWidth (window s))
                               (Window.innerHeight (window s)) (renderer s)) s in
  set_camera
    (Camera.perspective
       (Canvas.width (Renderer.canvas (renderer s))
        / Canvas.height (Renderer.canvas (renderer s)))
       (camera s)) s.

Definition indexedGeometry : Geometry.t :=
  Geometry.Buffers
    [("position",
      Geometry.attr None 3
        (Float32Array [-0.5; 0.5; 0; -0.5; -0.5; 0; 0.5; 0.5; 0; 0.5; -0.5; 0]));
     ("uv",
      Geometry.attr None 2 (Float32Array [0; 1; 1; 1; 0; 0; 1; 0]));
     ("index",
      Geometry.attr None 1 (Uint16Array [0; 1; 2; 1; 3; 2]%Z))].

Definition nonIndexedGeometry : Geometry.t :=
  Geometry.Buffers
    [("position",
      Geometry.attr None 3
        (Float32Array [-0.5; 0.5; 0; -0.5; -0.5; 0; 0.5; 0.5; 0;
                       -0.5; -0.5; 0; 0.5; -0.5; 0; 0.5; 0.5; 0]));
     ("uv",
      Geometry.attr None 2 (Float32Array [0; 1; 1; 1; 0; 0; 1; 1; 1; 0; 0; 0]))].

Definition update (t : number) (s : State) : State :=
  let s := requestAnimationFrame Update s in
  let s := set_uniform "uTime" (UNumber (t * 1e-3)) s in
  render s.

Definition setup (w h : number) : State :=
  let s := page w h (Renderer.create None)
                (Camera.over_position (Vec3.over_z (fun _ => 15))
                                      (Camera.create (Some 15))) in
  let s := addEventListener "resize" Resize s in
  let s := resize s in
  let '(indexed, s) := new_geometry indexedGeometry s in
  let '(nonIndexed, s) := new_geometry nonIndexedGeometry s in
  let s := set_uniforms [("uTime", UNumber 0)] s in
  let '(indexedMesh, s) := new_mesh indexed s in
  let s := setParent indexedMesh s in
  let s := over_object indexedMesh (Mesh.over_position (Vec3.over_y (fun _ => 0.9))) s in
  let '(nonIndexedMesh, s) := new_mesh nonIndexed s in
  let s := setParent nonIndexedMesh s in
  let s := over_object nonIndexedMesh
             (Mesh.over_position (Vec3.over_y (fun _ => -0.9))) s in
  requestAnimationFrame Update s.

Definition script : Script := mkScript update resize no_mousemove no_model.

End IndexedVsNonIndexed.

(** ** Sorted transparency ([src/unnamed/part_001]) *)

Module SortTransparency.
Section Random.

(** [rnd k] is what the [k]-th call of [Math.random()] returns. *)
Variable rnd : nat -> number.

Definition resize (s : State) : State :=
  let s := set_renderer
             (Renderer.setSize (Window.innerWidth (window s))
                               (Window.innerHeight (window s)) (renderer s)) s in
  set_camera
    (Camera.perspective
       (Canvas.width (Renderer.canvas (renderer s))
        / Canvas.height (Renderer.canvas (renderer s)))
       (camera s)) s.

(** The body of the [for] loop that builds the fifty meshes; seven random
    numbers are drawn per mesh. *)
Definition add_mesh (geometry : nat) (s : State) (i : nat) : State :=
  let '(mesh, s) := new_mesh geometry s in
  let r := fun j => rnd (7 * i + j) in
  let s := over_object mesh
             (Mesh.over_position
                (fun _ => Vec3.mk ((r 0%nat - 0.5) * 3) ((r 1%nat - 0.5) * 6)
                                  ((r 2%nat - 0.5) * 3))) s in
  let s := over_object mesh
             (Mesh.over_rotation
                (fun _ => Vec3.mk 0 ((r 3%nat - 0.5) * 6.28)
                                  ((r 4%nat - 0.5) * 6.28))) s in
  let k := r 5%nat * 0.5 + 0.2 in
  let s := over_object mesh (Mesh.set_scale (Vec3.mk k k k)) s in
  let s := over_object mesh (Mesh.set_speed (r 6%nat * 1.5 + 0.2)) s in
  let s := setParent mesh s in
  set_meshes (meshes s ++ [mesh]) s.

(** The callback of [meshes.forEach]. *)
Definition turn (m : Mesh.t) : Mesh.t :=
  let m := Mesh.over_rotation (Vec3.over_y (fun a => a + 0.05)) m in
  let m := Mesh.over_rotation (Vec3.over_z (fun a => a + 0.05)) m in
  if Vec3.y (Mesh.position m) <? -3
  then Mesh.over_position (Vec3.over_y (fun a => a + 6)) m
  else m.

Definition update (t : number) (s : State) : State :=
  let s := requestAnimationFrame Update s in
  let s := fold_left (fun s mesh => over_object mesh turn s) (meshes s) s in
  let s := set_scene (Transform.over_rotation (Vec3.over_y (fun a => a + 0.015))
                                              (scene s)) s in
  render s.

Definition setup (w h : number) : State :=
  let s := page w h (Renderer.create (Some 2))
                (Camera.over_rotation (Vec3.over_z (fun _ => -0.3))
                   (Camera.over_position (fun _ => Vec3.mk 0 0 7)
                                         (Camera.create (Some 35)))) in
  let s := addEventListener "resize" Resize s in
  let s := resize s in
  let '(geometry, s) := new_geometry (Geometry.Plane 10 10) s in
  let '(texture, s) := new_texture false s in
  let s := new_image "../../assets/leaf.jpg" (AssignImage texture) s in
  let s := set_uniforms [("tMap", UTexture texture); ("uColor", UColor "#ffc219")] s in
  let s := fold_left (add_mesh geometry) (seq 0 50) s in
  requestAnimationFrame Update s.

Definition script : Script := mkScript update resize no_mousemove no_model.

End Random.
End SortTransparency.

(** ** Instancing ([src/unnamed/part_002]) *)

Module Instancing.
Section Random.

(** [rnd k] is what the [k]-th call of [Math.random()] returns. *)
Variable rnd : nat -> number.

Definition resize (s : State) : State :=
  let s := set_renderer
             (Renderer.setSize (Window.innerWidth (window s))
                               (Window.innerHeight (window s)) (renderer s)) s in
  set_camera
    (Camera.perspective
       (Canvas.width (Renderer.canvas (renderer s))
        / Canvas.height (Renderer.canvas (renderer s)))
       (camera s)) s.

Definition num : nat := 20.

(** One turn of the [for] loop of [loadModel] on the two instance arrays;
    six random numbers are drawn per turn. *)
Definition fill (acc : option (list number * list number)) (i : nat)
  : option (list number * list number) :=
  match acc with
  | Some (offset, random) =>
      let r := fun j => rnd (6 * i + j) in
      match f32_set [r 0%nat * 2 - 1; r 1%nat * 2 - 1; r 2%nat * 2 - 1] (i * 3) offset with
      | Some offset' =>
          match f32_set [r 3%nat; r 4%nat; r 5%nat] (i * 3) random with
          | Some random' => Some (offset', random')
          | None => None
          end
      | None => None
      end
  | None => None
  end.

(** [loadModel] from the point where [data] is there. *)
Definition loadModel_resume (data : ModelData.t) (s : State) : option State :=
  match fold_left fill (seq 0 num)
          (Some (Float32Array_zeros (num * 3), Float32Array_zeros (num * 3))) with
  | Some (offset, random) =>
      let '(geometry, s) :=
        new_geometry
          (Geometry.Buffers
             [("position", Geometry.attr None 3 (Float32Array (ModelData.position data)));
              ("uv", Geometry.attr None 2 (Float32Array (ModelData.uv data)));
              ("normal", Geometry.attr None 3 (Float32Array (ModelData.normal data)));
              ("offset", Geometry.attr (Some 1%nat) 3 (F32 offset));
              ("random", Geometry.attr (Some 1%nat) 3 (F32 random))]) s in
      let '(m, s) := new_mesh geometry s in
      let s := set_mesh (Some m) s in
      Some (setParent m s)
  | None => None
  end.

(** [loadModel()]: runs up to [await fetch(...)]. *)
Definition loadModel (s : State) : State := set_loading AwaitingFetch s.

Definition update (t : number) (s : State) : State :=
  let s := requestAnimationFrame Update s in
  let s := match mesh s with
           | Some m => over_object m (Mesh.over_rotation (Vec3.over_y (fun a => a - 5e-3))) s
           | None => s
           end in
  let s := set_uniform "uTime" (UNumber (t * 1e-3)) s in
  render s.

Definition setup (w h : number) : State :=
  let s := page w h (Renderer.create (Some 2))
                (Camera.over_position (Vec3.over_z (fun _ => 15))
                                      (Camera.create (Some 15))) in
  let s := addEventListener "resize" Resize s in
  let s := resize s in
  let '(texture, s) := new_texture false s in
  let s := new_image "../../assets/acorn.jpg" (AssignImage texture) s in
  let s := set_uniforms [("uTime", UNumber 0); ("tMap", UTexture texture)] s in
  let s := loadModel s in
  requestAnimationFrame Update s.

Definition script : Script := mkScript update resize no_mousemove loadModel_resume.

End Random.
End Instancing.

(** ** The four pages *)

Inductive Sample := PointLightingPage | IndexedPage | SortTransparencyPage | InstancingPage.

(** What the host supplies to a page: the per-frame effect of the orbit
    controls, the values [Math.random()] returns, and the window size at
    load. *)
Record Host := mkHost {
  orbit : Camera.t -> Camera.t;
  rnd : nat -> number;
  width0 : number;
  height0 : number
}.

Definition script (h : Host) (k : Sample) : Script :=
  match k with
  | PointLightingPage => PointLighting.script (orbit h)
  | IndexedPage => IndexedVsNonIndexed.script
  | SortTransparencyPage => SortTransparency.script
  | InstancingPage => Instancing.script (rnd h)
  end.

Definition setup (h : Host) (k : Sample) : State :=
  match k with
  | PointLightingPage => PointLighting.setup (width0 h) (height0 h)
  | IndexedPage => IndexedVsNonIndexed.setup (width0 h) (height0 h)
  | SortTransparencyPage => SortTransparency.setup (rnd h) (width0 h) (height0 h)
  | InstancingPage => Instancing.setup (width0 h) (height0 h)
  end.

(** ** Notions the properties are stated with *)

Definition resize_event (e : Event) : bool :=
  match e with WindowResize _ _ => true | _ => false end.

Definition frame_event (e : Event) : bool :=
  match e with AnimationFrame _ => true | _ => false end.

(** The drawing buffer of a page. *)
Definition drawing_buffer (s : State) : Canvas.t := Renderer.canvas (renderer s).

(** The animation state of a page: every mesh with its position and
    rotation, the rotation of the scene root, the uniform values, and the
    script's own [mesh] and [meshes]. *)
Record Animation := mkAnimation {
  a_objects : list Mesh.t;
  a_scene : Vec3.t;
  a_uniforms : list (string * Uniform);
  a_mesh : option nat;
  a_meshes : list nat
}.

Definition animation (s : State) : Animation :=
  mkAnimation (objects s) (Transform.rotation (scene s)) (uniforms s) (mesh s) (meshes s).

(** What the frame callback, the resize listener, the mouse-move listener
    and the rest of [loadModel] each leave alone. *)
Definition beside_update (s : State) :=
  (window s, renderer s, geometries s, textures s, images s,
   (mesh s, meshes s, loading s, listeners s, console s)).

Definition beside_resize (s : State) :=
  (window s, scene s, objects s, geometries s, uniforms s,
   (textures s, images s, mesh s, meshes s, loading s),
   (frames s, listeners s, requests s, console s)).

Definition beside_mousemove (s : State) :=
  (window s, renderer s, camera s, scene s, objects s,
   (geometries s, textures s, images s, mesh s, meshes s),
   (loading s, frames s, listeners s, requests s, console s)).

Definition beside_load (s : State) :=
  (window s, renderer s, camera s, uniforms s, textures s,
   (images s, meshes s, loading s, frames s, listeners s),
   (requests s, console s)).

(** A script whose handlers touch only what the four pages' handlers
    touch. *)
Record Tame (p : Script) : Prop := mkTame {
  update_schedules : forall t s, frames (update p t s) = frames s ++ [Update];
  update_renders : forall t s,
    requests (update p t s) =
    requests s ++ [request (scene (update p t s)) (objects (update p t s))
                           (camera (update p t s))];
  update_beside : forall t s, beside_update (update p t s) = beside_update s;
  resize_beside : forall s, beside_resize (resize p s) = beside_resize s;
  mousemove_beside : forall x y s, beside_mousemove (mousemove p x y s) = beside_mousemove s;
  load_beside : forall d s s', loadModel_resume p d s = Some s' ->
    beside_load s' = beside_load s /\ exists g, geometries s' = geometries s ++ g
}.

(** Image [i] feeds texture [i], has no error handler, and the texture holds
    it exactly when it has loaded. *)
Definition image_feeds (i : nat) (img : Image.t) (tx : Texture.t) : Prop :=
  Image.onload img = Some (AssignImage i) /\
  Image.onerror img = None /\
  Texture.image tx = match Image.status img with Loaded => Some i | _ => None end.

Definition images_feed (s : State) : Prop :=
  length (images s) = length (textures s) /\
  forall i img tx,
    nth_error (images s) i = Some img -> nth_error (textures s) i = Some tx ->
    image_feeds i img tx.

Definition image_status (s : State) (i : nat) : option ImageStatus :=
  option_map Image.status (nth_error (images s) i).

Definition texture_image (s : State) (i : nat) : option (option nat) :=
  option_map Texture.image (nth_error (textures s) i).

(** Nothing of the instanced model is there. *)
Definition model_absent (s : State) : Prop :=
  mesh s = None /\ objects s = [] /\ Transform.children (scene s) = [] /\ geometries s = [].

(** On the instancing page the model is there exactly when [loadModel] has
    run to its end: then [mesh] is the one mesh, attached to the scene, with
    the one geometry. *)
Definition model_state (s : State) : Prop :=
  match loading s with
  | NotCalled => False
  | Fulfilled =>
      mesh s = Some 0%nat /\ length (objects s) = 1%nat /\
      length (geometries s) = 1%nat /\ Transform.children (scene s) = [0%nat]
  | _ => model_absent s
  end.

(** An asset load that fails in state [s]: an image that was loading
    errors, the fetch rejects, or the body does not parse. *)
Inductive fails (s : State) : Event -> Prop :=
| image_fails (i : nat) : image_status s i = Some Loading -> fails s (ImageError i)
| fetch_fails : loading s = AwaitingFetch -> fails s (FetchSettled false)
| json_fails : loading s = AwaitingJson -> fails s (JsonSettled None).

(** What the failed load was to bring is not there: the texture has no
    image, or there is no instanced mesh and [loadModel] is rejected. *)
Definition absent_after (e : Event) (s : State) : Prop :=
  match e with
  | ImageError i => image_status s i = Some Broken /\ texture_image s i = Some None
  | FetchSettled _ | JsonSettled _ => loading s = Rejected /\ model_absent s
  | _ => True
  end.

(** No image element of the page has an error handler. *)
Definition no_error_handler (s : State) : Prop :=
  forall i img, nth_error (images s) i = Some img -> Image.onerror img = None.

(** A mesh the wrap branch of the sorted-transparency callback passes over,
    with its height in the range the script draws it from. *)
Definition in_range (m : Mesh.t) : Prop :=
  (Vec3.y (Mesh.position m) <? -3) = false /\
  (-3 <=? Vec3.y (Mesh.position m)) = true /\
  (Vec3.y (Mesh.position m) <=? 3) = true.

(** [Math.random()] returns a number from 0 up to but not including 1. *)
Definition unit_interval (rnd : nat -> number) : Prop :=
  forall k, (0 <=? rnd k) = true /\ (rnd k <? 1) = true.

(** *** Reading a geometry *)

(** The [k]-th group of [size] numbers of an attribute's data. *)
Definition chunk (size k : nat) (l : list number) : option (list number) :=
  let c := firstn size (skipn (k * size) l) in
  if (length c =? size)%nat then Some c else None.

Definition vertex (g : Geometry.t) (name : string) (k : nat) : option (list number) :=
  match Geometry.attribute name g with
  | Some a =>
      match Geometry.data a with
      | F32 l => chunk (Geometry.size a) k l
      | U16 _ => None
      end
  | None => None
  end.

Definition index (g : Geometry.t) : option (list nat) :=
  match Geometry.attribute "index" g with
  | Some a =>
      match Geometry.data a with
      | U16 l => Some (map Z.to_nat l)
      | F32 _ => None
      end
  | None => None
  end.

Definition vertex_count (g : Geometry.t) : nat :=
  match Geometry.attribute "position" g with
  | Some a =>
      match Geometry.data a with
      | F32 l => length l / Geometry.size a
      | U16 l => length l / Geometry.size a
      end
  | None => 0
  end.

(** The vertices a draw of the geometry visits, in order: by the index list
    when there is one, one after the other when there is none. *)
Definition triangle_stream (g : Geometry.t)
  : list (option (list number) * option (list number)) :=
  map (fun k => (vertex g "position" k, vertex g "uv" k))
      (match index g with
       | Some l => l
       | None => seq 0 (vertex_count g)
       end).

(** *** Binary64 constants and shifts *)

Definition c_half : spec_float := S754_finite false 4503599627370496 (-53).
Definition c_one : spec_float := S754_finite false 4503599627370496 (-52).
Definition c_six : spec_float := S754_finite false 6755399441055744 (-50).
Definition c_three : spec_float := S754_finite false 6755399441055744 (-51).
Definition c_minus_three : spec_float := S754_finite true 6755399441055744 (-51).

(** After [j] single shifts of [m0]: the quotient, and no lost bit when the
    division is exact. *)
Definition shifted (m0 : Z) (j : Z) (r : shr_record) : Prop :=
  shr_m r = (m0 / 2 ^ j)%Z /\
  ((m0 mod 2 ^ j)%Z = 0%Z -> shr_r r = false /\ shr_s r = false).

(** A rounded product that is zero or of magnitude at most three. *)
Definition within_three (s : bool) (v : spec_float) : Prop :=
  v = S754_zero s \/
  exists m e, v = S754_finite s m e /\ (e <= -51)%Z /\
              (Zpos m <= 6755399441055744 * 2 ^ (-51 - e))%Z.

(** A host to try the pages on. *)
Definition host0 : Host := mkHost (fun c => c) (fun _ => 0.25) 800 600.

(** *** Notions for the further properties *)

Definition mouse_event (e : Event) : bool :=
  match e with DocumentMouseMove _ _ => true | _ => false end.

(** [program.uniforms.<name>.value], if the program has such a uniform. *)
Definition uniform (name : string) (s : State) : option Uniform :=
  option_map snd (find (fun kv => String.eqb (fst kv) name) (uniforms s)).

(** The uniform a page's frame callback stores the time in, and what it
    stores for a timestamp; the sorted-transparency page has none. *)
Definition clock (k : Sample) : option (string * (number -> number)) :=
  match k with
  | PointLightingPage => Some ("u_dt", fun dt => (- dt) * 0.00002)
  | IndexedPage => Some ("uTime", fun t => t * 1e-3)
  | SortTransparencyPage => None
  | InstancingPage => Some ("uTime", fun t => t * 1e-3)
  end.

(** Where a camera stands and how wide it looks: all of it but the aspect. *)
Definition placement (c : Camera.t) : option number * Vec3.t * Vec3.t :=
  (Camera.fov c, Camera.position c, Camera.rotation c).

(** What the point-lighting callback does to its mesh each frame. *)
Definition spin (m : Mesh.t) : Mesh.t :=
  Mesh.over_rotation (Vec3.over_y (fun a => a + 0.005)) m.

(** The two per-instance arrays as [loadModel] leaves them: instance [i]
    takes its offset from the draws [6 i], [6 i + 1], [6 i + 2] and its
    random triple from the three draws after them. *)
Definition instance_offsets (rnd : nat -> number) : list number :=
  flat_map (fun i => map fround [rnd (6 * i + 0)%nat * 2 - 1;
                                 rnd (6 * i + 1)%nat * 2 - 1;
                                 rnd (6 * i + 2)%nat * 2 - 1])
           (seq 0 Instancing.num).

Definition instance_randoms (rnd : nat -> number) : list number :=
  flat_map (fun i => map fround [rnd (6 * i + 3)%nat; rnd (6 * i + 4)%nat;
                                 rnd (6 * i + 5)%nat])
           (seq 0 Instancing.num).

(** The geometry [loadModel] constructs from the parsed model. *)
Definition model_geometry (rnd : nat -> number) (data : ModelData.t) : Geometry.t :=
  Geometry.Buffers
    [("position", Geometry.attr None 3 (Float32Array (ModelData.position data)));
     ("uv", Geometry.attr None 2 (Float32Array (ModelData.uv data)));
     ("normal", Geometry.attr None 3 (Float32Array (ModelData.normal data)));
     ("offset", Geometry.attr (Some 1%nat) 3 (F32 (instance_offsets rnd)));
     ("random", Geometry.attr (Some 1%nat) 3 (F32 (instance_randoms rnd)))].

(** What the instancing callback does to its mesh each frame. *)
Definition spin_back (m : Mesh.t) : Mesh.t :=
  Mesh.over_rotation (Vec3.over_y (fun a => a - 5e-3)) m.

(** * Properties *)

(** ** The pages at work *)

Example fround_tenth : fround 0.1 = 0.10000000149011612.
Proof. reflexivity. Qed.

Example fround_overflows : fround 1e40 = infinity.
Proof. reflexivity. Qed.

Example f32_set_in_range :
  f32_set [1; 2; 3] 3 (Float32Array_zeros 7) = Some [0; 0; 0; 1; 2; 3; 0].
Proof. reflexivity. Qed.

Example f32_set_out_of_range : f32_set [1; 2; 3] 5 (Float32Array_zeros 7) = None.
Proof. reflexivity. Qed.

(** The instancing page in an 800 by 600 window draws into a 1600 by 1200
    buffer and passes the camera the aspect 4/3. *)
Example instancing_buffer :
  drawing_buffer (setup host0 InstancingPage) = Canvas.mk 1600 1200 /\
  Camera.aspect (camera (setup host0 InstancingPage)) = Some (1600 / 1200).
Proof. split; reflexivity. Qed.

Example point_lighting_binds_mesh (w h : number) :
  nth_error (objects (PointLighting.setup w h)) PointLighting.mesh = Some (Mesh.create 0) /\
  Transform.children (scene (PointLighting.setup w h)) = [PointLighting.mesh].
Proof. split; reflexivity. Qed.

Example point_lighting_frame :
  let s := dispatch (script host0 PointLightingPage) (AnimationFrame 1000)
                    (setup host0 PointLightingPage) in
  option_map Mesh.rotation (nth_error (objects s) PointLighting.mesh)
    = Some (Vec3.mk 0 0.005 0) /\
  find (fun kv => String.eqb (fst kv) "u_dt") (uniforms s)
    = Some ("u_dt", UNumber (-0.02)) /\
  length (requests s) = 1%nat /\ frames s = [Update].
Proof. repeat split. Qed.

Example point_lighting_mousemove :
  find (fun kv => String.eqb (fst kv) "u_lightWorldPosition")
       (uniforms (dispatch (script host0 PointLightingPage) (DocumentMouseMove 500 100)
                           (setup host0 PointLightingPage)))
  = Some ("u_lightWorldPosition", UArray [100; 200; 40]).
Proof. reflexivity. Qed.

(** The meshes of the sorted-transparency page are the same objects in the
    script's [meshes] and under the scene. *)
Example sort_transparency_meshes (rnd : nat -> number) (w h : number) :
  meshes (SortTransparency.setup rnd w h) = seq 0 50 /\
  Transform.children (scene (SortTransparency.setup rnd w h)) = seq 0 50.
Proof. split; reflexivity. Qed.

(** The wrap branch of the sorted-transparency callback: a mesh below [-3]
    is lifted by 6. *)
Example turn_wraps :
  Mesh.position
    (SortTransparency.turn (Mesh.over_position (fun _ => Vec3.mk 1 (-3.5) 2) (Mesh.create 0)))
  = Vec3.mk 1 2.5 2.
Proof. reflexivity. Qed.

Example image_load_fills_texture :
  let s := dispatch (script host0 SortTransparencyPage) (ImageLoad 0)
                    (setup host0 SortTransparencyPage) in
  texture_image s 0 = Some (Some 0%nat) /\ image_status s 0 = Some Loaded.
Proof. split; reflexivity. Qed.

(** ** Rounding in binary64

    The sorted-transparency page places each mesh at a height
    [(Math.random() - 0.5) * 6].  That this never falls below [-3] nor rises
    above [3] is a fact about rounding to nearest, proved here from the
    specification of the primitive operations. *)

Module Binary64.
Local Open Scope Z_scope.

Lemma digits2_size (p : positive) : digits2_pos p = Pos.size p.
Proof. induction p; simpl; congruence. Qed.

Lemma digits2_le (p : positive) (k : Z) :
  0 <= k -> Zpos p < 2 ^ k -> Zpos (digits2_pos p) <= k.
Proof.
  intros Hk Hp. rewrite digits2_size.
  assert (H' : 2 ^ Zpos (Pos.size p) <= 2 * Zpos p).
  { change (2 * Zpos p) with (Zpos p~0). rewrite <- Pos2Z.inj_pow. apply Pos.size_le. }
  destruct (Z_lt_le_dec k (Zpos (Pos.size p))) as [Hlt|]; [|assumption].
  exfalso.
  assert (H : 2 ^ (k + 1) <= 2 ^ Zpos (Pos.size p)) by (apply Z.pow_le_mono_r; lia).
  rewrite Z.pow_add_r in H by lia. lia.
Qed.

Lemma digits2_gt (p : positive) : Zpos p < 2 ^ Zpos (digits2_pos p).
Proof. rewrite digits2_size, <- Pos2Z.inj_pow. apply Pos.size_gt. Qed.

Lemma compare_cont_Eq (p q : positive) : Pos.compare_cont Eq p q = Pos.compare p q.
Proof. reflexivity. Qed.

Section Iterate.
Context {A : Type} (f : A -> A) (P : Z -> A -> Prop).
Hypothesis step : forall j x, 0 <= j -> P j x -> P (j + 1) (f x).

Lemma iter_pos_counts (p : positive) :
  forall j x, 0 <= j -> P j x -> P (j + Zpos p) (iter_pos f p x).
Proof.
  induction p as [p IH|p IH|]; intros j x Hj Hx; simpl.
  - replace (j + Zpos p~1) with (((j + 1) + Zpos p) + Zpos p) by lia.
    apply IH; [lia|]. apply IH; [lia|]. now apply step.
  - replace (j + Zpos p~0) with ((j + Zpos p) + Zpos p) by lia.
    apply IH; [lia|]. now apply IH.
  - now apply step.
Qed.
End Iterate.

Lemma shr_1_fields (m : Z) (r s : bool) :
  0 <= m ->
  shr_1 (Build_shr_record m r s) = Build_shr_record (m / 2) (Z.odd m) (r || s).
Proof.
  intros Hm. rewrite <- Z.div2_div.
  destruct m as [|[p|p|]|p]; try reflexivity; lia.
Qed.

Lemma shr_1_shifted (m0 : Z) (j : Z) (r : shr_record) :
  0 <= m0 -> 0 <= j -> shifted m0 j r -> shifted m0 (j + 1) (shr_1 r).
Proof.
  intros Hm Hj [Hq Hex].
  assert (Hp : 0 < 2 ^ j) by (apply Z.pow_pos_nonneg; lia).
  assert (Hpow : 2 ^ (j + 1) = 2 ^ j * 2) by (rewrite Z.pow_add_r by lia; reflexivity).
  assert (Hq0 : 0 <= shr_m r) by (rewrite Hq; apply Z.div_pos; lia).
  destruct r as [m r s]. simpl in Hq, Hex, Hq0.
  rewrite shr_1_fields by assumption. split; simpl.
  - rewrite Hq, Hpow, Z.div_div by lia. reflexivity.
  - intros H0. rewrite Hpow, Z.rem_mul_r in H0 by lia.
    pose proof (Z.mod_pos_bound m0 (2 ^ j) Hp) as B1.
    pose proof (Z.mod_pos_bound (m0 / 2 ^ j) 2 ltac:(lia)) as B2.
    assert (H1 : m0 mod 2 ^ j = 0) by nia.
    assert (H2 : (m0 / 2 ^ j) mod 2 = 0) by nia.
    destruct (Hex H1) as [-> ->]. rewrite <- Hq in H2.
    split; [|reflexivity].
    rewrite Zmod_odd in H2. destruct (Z.odd m); [discriminate|reflexivity].
Qed.

Lemma shr_shifted (m : Z) (p : positive) :
  0 <= m -> shifted m (Zpos p) (iter_pos shr_1 p (Build_shr_record m false false)).
Proof.
  intros Hm.
  change (Zpos p) with (0 + Zpos p).
  apply (iter_pos_counts shr_1 (shifted m)).
  - intros j x Hj. now apply shr_1_shifted.
  - lia.
  - split; simpl; [rewrite Z.div_1_r; reflexivity | auto].
Qed.

(** [shr_fexp] on an exact mantissa shifts by some [n >= 0] and lands on the
    larger of [e] and the format's exponent for [m]. *)
Lemma shr_fexp_exact (m e : Z) :
  0 <= m ->
  exists n,
    0 <= n /\
    e + n = Z.max e (fexp prec emax (Zdigits2 m + e)) /\
    snd (shr_fexp prec emax m e loc_Exact) = e + n /\
    shr_m (fst (shr_fexp prec emax m e loc_Exact)) = m / 2 ^ n /\
    (m mod 2 ^ n = 0 ->
     loc_of_shr_record (fst (shr_fexp prec emax m e loc_Exact)) = loc_Exact).
Proof.
  intros Hm. unfold shr_fexp, shr. simpl shr_record_of_loc.
  destruct (fexp prec emax (Zdigits2 m + e) - e) as [|p|p] eqn:E.
  - exists 0. simpl. rewrite Z.div_1_r. repeat split; try lia.
  - exists (Zpos p). destruct (shr_shifted m p Hm) as [Hq Hex]. simpl.
    repeat split; try lia; try assumption.
    intros H0. destruct (Hex H0) as [Hr Hs].
    destruct (iter_pos shr_1 p _) as [m' r' s']. simpl in *. subst. reflexivity.
  - exists 0. simpl. rewrite Z.div_1_r. repeat split; try lia.
Qed.

Lemma round_nearest_even_bounds (m : Z) (l : location) :
  m <= round_nearest_even m l <= m + 1 /\
  (l = loc_Exact -> round_nearest_even m l = m).
Proof.
  destruct l as [|[| |]]; simpl; try destruct (Z.even m); split; try lia;
    intros; congruence.
Qed.

Lemma fexp_le (m k e b : Z) :
  0 < m -> 0 < b < 2 ^ 53 -> -1074 <= k -> e <= k -> m <= b * 2 ^ (k - e) ->
  fexp prec emax (Zdigits2 m + e) <= k.
Proof.
  intros Hm Hb Hk He Hle.
  assert (Hlt : m < 2 ^ (53 + k - e)).
  { replace (53 + k - e) with (53 + (k - e)) by lia. rewrite Z.pow_add_r by lia.
    assert (0 < 2 ^ (k - e)) by (apply Z.pow_pos_nonneg; lia). nia. }
  destruct m as [|p|p]; try lia. simpl Zdigits2.
  pose proof (digits2_le p (53 + k - e) ltac:(lia) Hlt).
  unfold fexp, SpecFloat.emin, prec, emax. lia.
Qed.

(** Rounding an exact magnitude that does not exceed the representable
    bound [b * 2 ^ k] stays within that bound, and keeps the sign. *)
Lemma round_aux_le (sx : bool) (mx ex b k : Z) :
  0 < mx -> 0 < b < 2 ^ 53 -> -1074 <= k <= 971 -> ex <= k ->
  mx <= b * 2 ^ (k - ex) ->
  binary_round_aux prec emax sx mx ex loc_Exact = S754_zero sx \/
  exists m' e',
    binary_round_aux prec emax sx mx ex loc_Exact = S754_finite sx m' e' /\
    e' <= k /\ Zpos m' <= b * 2 ^ (k - e').
Proof.
  intros Hmx Hb Hk Hex Hle. unfold binary_round_aux.
  destruct (shr_fexp_exact mx ex ltac:(lia)) as (n & Hn & Hmax & He1 & Hm1 & Hloc).
  destruct (shr_fexp prec emax mx ex loc_Exact) as [mrs1 e1]. simpl in He1, Hm1, Hloc.
  pose proof (fexp_le mx k ex b Hmx Hb ltac:(lia) Hex Hle) as Hf1.
  assert (He1k : e1 <= k) by lia.
  assert (P1 : 0 < 2 ^ n) by (apply Z.pow_pos_nonneg; lia).
  assert (Hsplit : 2 ^ (k - ex) = 2 ^ (k - e1) * 2 ^ n)
    by (rewrite <- Z.pow_add_r by lia; f_equal; lia).
  set (B1 := b * 2 ^ (k - e1)).
  assert (HB1 : 0 < B1) by (apply Z.mul_pos_pos; [lia | apply Z.pow_pos_nonneg; lia]).
  set (m2 := round_nearest_even (shr_m mrs1) (loc_of_shr_record mrs1)).
  assert (Hm1pos : 0 <= shr_m mrs1) by (rewrite Hm1; apply Z.div_pos; lia).
  assert (Hm2 : 0 <= m2 <= B1).
  { unfold m2.
    destruct (round_nearest_even_bounds (shr_m mrs1) (loc_of_shr_record mrs1))
      as [Hb2 Hexact].
    split; [lia|].
    assert (Hq : shr_m mrs1 <= B1).
    { rewrite Hm1. apply Z.div_le_upper_bound; [lia|]. unfold B1.
      rewrite Hsplit in Hle. lia. }
    destruct (Z.eq_dec (shr_m mrs1) B1) as [Heq|Hne]; [|lia].
    rewrite Hexact; [lia|]. apply Hloc.
    assert (B1 * 2 ^ n <= mx).
    { rewrite <- Heq, Hm1. rewrite Z.mul_comm. apply Z.mul_div_le. lia. }
    assert (mx = B1 * 2 ^ n) by (unfold B1 in *; rewrite Hsplit in Hle; lia).
    subst mx. apply Z.mod_mul. lia. }
  clearbody m2.
  destruct (shr_fexp_exact m2 e1 ltac:(lia)) as (n' & Hn' & Hmax' & He2 & Hm3 & _).
  destruct (shr_fexp prec emax m2 e1 loc_Exact) as [mrs2 e2]. simpl in He2, Hm3.
  assert (He2k : e2 <= k).
  { destruct (Z.eq_dec m2 0) as [->|Hnz].
    - simpl Zdigits2 in Hmax'. unfold fexp, SpecFloat.emin, prec, emax in Hmax'. lia.
    - pose proof (fexp_le m2 k e1 b ltac:(lia) Hb ltac:(lia) He1k
                          ltac:(unfold B1 in Hm2; lia)).
      lia. }
  assert (P2 : 0 < 2 ^ n') by (apply Z.pow_pos_nonneg; lia).
  assert (Hsplit' : 2 ^ (k - e1) = 2 ^ (k - e2) * 2 ^ n')
    by (rewrite <- Z.pow_add_r by lia; f_equal; lia).
  assert (Hm3le : 0 <= shr_m mrs2 <= b * 2 ^ (k - e2)).
  { rewrite Hm3. split; [apply Z.div_pos; lia|].
    apply Z.div_le_upper_bound; [lia|]. unfold B1 in Hm2. rewrite Hsplit' in Hm2. lia. }
  destruct (shr_m mrs2) as [|m3|m3]; [left; reflexivity | right | lia].
  exists m3, e2. unfold prec, emax.
  destruct (Z.leb_spec e2 (1024 - 53)); [|lia].
  split; [reflexivity | split; lia].
Qed.

Lemma shl_align_spec (mx : positive) (ex ex' : Z) :
  exists mz ez,
    shl_align mx ex ex' = (mz, ez) /\ ez <= ex /\
    Zpos mz = Zpos mx * 2 ^ (ex - ez) /\ (ex' <= ex -> ez = ex').
Proof.
  unfold shl_align. destruct (ex' - ex) as [|d|d] eqn:E.
  - exists mx, ex. rewrite Z.sub_diag. repeat split; lia.
  - exists mx, ex. rewrite Z.sub_diag. repeat split; lia.
  - exists (Pos.iter xO mx d), ex'. split; [reflexivity|]. split; [lia|].
    split; [|reflexivity].
    change (Pos.iter xO mx d) with (shift_pos d mx). rewrite shift_pos_correct.
    replace (ex - ex') with (Zpos d) by lia. rewrite Z.mul_comm. reflexivity.
Qed.

(** A magnitude of at most a half, rounded and then multiplied by six, is at
    most three. *)
Lemma times_six (s : bool) (q : positive) (e : Z) :
  e <= -1 -> Zpos q <= 2 ^ (-1 - e) ->
  within_three s (SF64mul (binary_round prec emax s q e) c_six).
Proof.
  intros He Hq. unfold binary_round.
  destruct (shl_align_spec q e (fexp prec emax (Zpos (digits2_pos q) + e)))
    as (mz & ez & -> & Hez & Hmz & _).
  assert (Hb : Zpos mz <= 1 * 2 ^ (-1 - ez)).
  { rewrite Hmz. replace (-1 - ez) with ((-1 - e) + (e - ez)) by lia.
    rewrite Z.pow_add_r by lia.
    assert (0 < 2 ^ (e - ez)) by (apply Z.pow_pos_nonneg; lia). nia. }
  destruct (round_aux_le s (Zpos mz) ez 1 (-1)) as [-> | (m1 & e1 & -> & He1 & Hm1)];
    try lia.
  - left. unfold SF64mul, SFmul, c_six. now rewrite xorb_false_r.
  - unfold SF64mul, SFmul, c_six. rewrite xorb_false_r.
    destruct (round_aux_le s (Zpos (m1 * 6755399441055744)) (e1 + -50)
                           6755399441055744 (-51))
      as [-> | (m2 & e2 & -> & He2 & Hm2)]; try lia.
    + replace (-51 - (e1 + -50)) with (-1 - e1) by lia. rewrite Pos2Z.inj_mul. nia.
    + now left.
    + right. exists m2, e2. auto.
Qed.

Lemma within_three_compare (s : bool) (v : spec_float) :
  within_three s v ->
  SFltb v c_minus_three = false /\
  SFleb c_minus_three v = true /\
  SFleb v c_three = true.
Proof.
  intros [-> | (m & e & -> & He & Hm)].
  - destruct s; repeat split.
  - unfold SFltb, SFleb, SFcompare, c_minus_three, c_three.
    destruct s; repeat split; try reflexivity.
    + destruct (Z.compare_spec e (-51)) as [->|Hlt|Hgt]; [|reflexivity|lia].
      change (2 ^ (-51 - -51)) with 1 in Hm. rewrite compare_cont_Eq.
      destruct (Pos.compare_spec m 6755399441055744); try reflexivity. lia.
    + destruct (Z.compare_spec (-51) e) as [<-|Hlt|Hgt]; [|lia|reflexivity].
      change (2 ^ (-51 - -51)) with 1 in Hm. rewrite compare_cont_Eq.
      destruct (Pos.compare_spec 6755399441055744 m); try reflexivity. lia.
    + destruct (Z.compare_spec e (-51)) as [->|Hlt|Hgt]; [|reflexivity|lia].
      change (2 ^ (-51 - -51)) with 1 in Hm. rewrite compare_cont_Eq.
      destruct (Pos.compare_spec m 6755399441055744); try reflexivity. lia.
Qed.

Lemma centred_spec (x : spec_float) :
  valid_binary x = true ->
  SFleb (S754_zero false) x = true ->
  SFltb x c_one = true ->
  exists s, within_three s (SF64mul (SF64sub x c_half) c_six).
Proof.
  intros Hv H0 H1. destruct x as [s|s| |s m e]; try discriminate.
  - exists true. right. exists 6755399441055744%positive, (-51).
    destruct s; (split; [reflexivity | split; [lia | reflexivity]]).
  - destruct s; discriminate.
  - destruct s; [discriminate|]. clear H0.
    unfold SpecFloat.valid_binary, bounded, canonical_mantissa in Hv.
    apply andb_prop in Hv. destruct Hv as [Hc _]. apply Z.eqb_eq in Hc.
    unfold fexp, SpecFloat.emin, prec, emax in Hc.
    assert (Hd53 : Zpos (digits2_pos m) <= 53) by lia.
    assert (Hm : Zpos m < 2 ^ 53).
    { eapply Z.lt_le_trans; [apply digits2_gt|]. apply Z.pow_le_mono_r; lia. }
    assert (He : e <= -53).
    { unfold SFltb, SFcompare, c_one in H1.
      destruct (Z.compare_spec e (-52)) as [->|Hlt|Hgt]; [|lia|discriminate].
      rewrite compare_cont_Eq in H1.
      destruct (Pos.compare_spec m 4503599627370496) as [|Hlt|]; try discriminate.
      assert (Hlt' : Zpos m < 2 ^ 52) by exact Hlt.
      pose proof (digits2_le m 52 ltac:(discriminate) Hlt'). clear Hlt Hlt' Hm. lia. }
    clear Hc H1 Hd53.
    unfold SF64sub, SFsub, c_half. rewrite Z.min_l by lia.
    destruct (shl_align_spec m e e) as (mz & ez & -> & _ & Hmz & Hez).
    destruct (shl_align_spec 4503599627370496 (-53) e) as (hz & ez' & -> & _ & Hhz & Hez').
    rewrite (Hez ltac:(lia)), Z.sub_diag in Hmz. rewrite (Hez' ltac:(lia)) in Hhz.
    simpl fst. simpl cond_Zopp. rewrite Hmz, Hhz, Z.mul_1_r.
    change (Zpos 4503599627370496) with (2 ^ 52).
    rewrite <- Z.pow_add_r by lia. replace (52 + (-53 - e)) with (-1 - e) by lia.
    assert (Hp : 0 < 2 ^ (-1 - e)) by (apply Z.pow_pos_nonneg; lia).
    assert (Hm' : Zpos m < 2 * 2 ^ (-1 - e)).
    { replace (2 * 2 ^ (-1 - e)) with (2 ^ (- e))
        by (replace (- e) with (1 + (-1 - e)) by lia; rewrite Z.pow_add_r by lia;
            reflexivity).
      eapply Z.lt_le_trans; [exact Hm|]. apply Z.pow_le_mono_r; lia. }
    clear Hm Hmz Hhz.
    unfold binary_normalize.
    destruct (Zpos m - 2 ^ (-1 - e)) as [|q|q] eqn:E.
    + exists false. now left.
    + exists false. apply times_six; lia.
    + exists true. apply times_six; lia.
Qed.

End Binary64.

(** For a number [r] from 0 up to but not including 1, the height
    [(r - 0.5) * 6] is not below [-3], so at least [-3], and at most [3]. *)
Lemma centred_in_range (r : number) :
  (0 <=? r) = true -> (r <? 1) = true ->
  ((r - 0.5) * 6 <? -3) = false /\
  (-3 <=? (r - 0.5) * 6) = true /\
  ((r - 0.5) * 6 <=? 3) = true.
Proof.
  intros H0 H1. rewrite leb_spec in H0. rewrite ltb_spec in H1.
  rewrite ltb_spec, !leb_spec, mul_spec, sub_spec.
  destruct (Binary64.centred_spec (Prim2SF r) (Prim2SF_valid r) H0 H1) as [s Hs].
  exact (Binary64.within_three_compare s _ Hs).
Qed.

(** ** Lists and runs *)

Lemma fold_left_keeps {A B C : Type} (f : A -> B -> A) (g : A -> C) :
  (forall a b, g (f a b) = g a) -> forall l a, g (fold_left f l a) = g a.
Proof.
  intros H l. induction l as [|b l IH]; intros a; simpl; [reflexivity|].
  rewrite IH. apply H.
Qed.

Lemma fold_left_invariant {A B : Type} (f : A -> B -> A) (P : A -> Prop) :
  (forall a b, P a -> P (f a b)) -> forall l a, P a -> P (fold_left f l a).
Proof.
  intros H l. induction l as [|b l IH]; intros a Ha; simpl; auto.
Qed.

Lemma length_over_nth {A : Type} (f : A -> A) (l : list A) :
  forall i, length (over_nth i f l) = length l.
Proof.
  induction l as [|a l IH]; intros [|i]; simpl; auto.
Qed.

Lemma nth_error_over_nth {A : Type} (f : A -> A) (l : list A) :
  forall j i,
    nth_error (over_nth j f l) i =
    if (i =? j)%nat then option_map f (nth_error l i) else nth_error l i.
Proof.
  induction l as [|a l IH]; intros [|j] [|i]; simpl; try reflexivity.
  - now destruct (i =? j)%nat.
  - apply IH.
Qed.

Lemma over_nth_last {A : Type} (f : A -> A) (l : list A) (a : A) :
  over_nth (length l) f (l ++ [a]) = l ++ [f a].
Proof.
  induction l as [|b l IH]; simpl; [reflexivity|]. now rewrite IH.
Qed.

Lemma map_over_nth_keeps {A B : Type} (g : A -> B) (f : A -> A) (l : list A) :
  Forall (fun a => g (f a) = g a) l -> forall i, map g (over_nth i f l) = map g l.
Proof.
  induction 1 as [|a l Ha Hl IH]; intros [|i]; simpl; try reflexivity.
  - now rewrite Ha.
  - now rewrite IH.
Qed.

Lemma run_app (p : Script) (es1 es2 : list Event) (s : State) :
  run p (es1 ++ es2) s = run p es2 (run p es1 s).
Proof. unfold run. apply fold_left_app. Qed.

Lemma run_one (p : Script) (e : Event) (s : State) : run p [e] s = dispatch p e s.
Proof. reflexivity. Qed.

Lemma dispatch_frame_one (p : Script) (t : number) (s : State) :
  frames s = [Update] ->
  dispatch p (AnimationFrame t) s = update p t (set_frames [] s).
Proof. intros H. simpl. now rewrite H. Qed.

Lemma dispatch_json (p : Script) (d : ModelData.t) (s : State) :
  loading s = AwaitingJson ->
  dispatch p (JsonSettled (Some d)) s =
  match loadModel_resume p d s with
  | Some s' => set_loading Fulfilled s'
  | None => set_loading Rejected s
  end.
Proof. intros H. simpl. now rewrite H. Qed.

Lemma run_invariant (p : Script) (P : State -> Prop) :
  (forall e s, P s -> P (dispatch p e s)) ->
  forall es s, P s -> P (run p es s).
Proof. intros H. unfold run. apply fold_left_invariant. intros a b. apply H. Qed.

Lemma state_eta (s : State) : set_objects (objects s) s = s.
Proof. now destruct s. Qed.

(** [meshes.forEach] changes the objects and nothing else. *)
Lemma forEach_objects (f : Mesh.t -> Mesh.t) (ms : list nat) :
  forall s,
    fold_left (fun s m => over_object m f s) ms s =
    set_objects (fold_left (fun os m => over_nth m f os) ms (objects s)) s.
Proof.
  induction ms as [|m ms IH]; intros s; simpl.
  - symmetry. apply state_eta.
  - rewrite IH. reflexivity.
Qed.

(** ** The handlers of the four pages keep to their own fields *)

Lemma point_lighting_tame (orbit : Camera.t -> Camera.t) :
  Tame (PointLighting.script orbit).
Proof.
  constructor; try reflexivity.
  intros d s s' H. injection H as <-. split; [reflexivity|].
  exists []. now rewrite app_nil_r.
Qed.

Lemma indexed_tame : Tame IndexedVsNonIndexed.script.
Proof.
  constructor; try reflexivity.
  intros d s s' H. injection H as <-. split; [reflexivity|].
  exists []. now rewrite app_nil_r.
Qed.

Lemma sort_transparency_tame : Tame SortTransparency.script.
Proof.
  constructor; try reflexivity.
  - intros t s. simpl. unfold SortTransparency.update.
    rewrite forEach_objects. reflexivity.
  - intros t s. simpl. unfold SortTransparency.update.
    rewrite forEach_objects. reflexivity.
  - intros t s. simpl. unfold SortTransparency.update.
    rewrite forEach_objects. reflexivity.
  - intros d s s' H. injection H as <-. split; [reflexivity|].
    exists []. now rewrite app_nil_r.
Qed.

Lemma instancing_tame (rnd : nat -> number) : Tame (Instancing.script rnd).
Proof.
  constructor; try reflexivity.
  - intros t s. simpl. unfold Instancing.update.
    change (mesh (requestAnimationFrame Update s)) with (mesh s).
    destruct (mesh s); reflexivity.
  - intros t s. simpl. unfold Instancing.update.
    change (mesh (requestAnimationFrame Update s)) with (mesh s).
    destruct (mesh s); reflexivity.
  - intros t s. simpl. unfold Instancing.update.
    change (mesh (requestAnimationFrame Update s)) with (mesh s).
    destruct (mesh s); reflexivity.
  - intros d s s'. simpl. unfold Instancing.loadModel_resume.
    destruct (fold_left _ _ _) as [[offset random]|]; [|discriminate].
    intros H. injection H as <-. split; [reflexivity|]. eexists. reflexivity.
Qed.

Lemma samples_tame (h : Host) (k : Sample) : Tame (script h k).
Proof.
  destruct k; simpl.
  - apply point_lighting_tame.
  - apply indexed_tame.
  - apply sort_transparency_tame.
  - apply instancing_tame.
Qed.

(** ** What an event can change *)

Ltac beside T :=
  intros;
  let H := fresh "Hb" in
  lazymatch goal with
  | |- _ (update _ ?t ?s) = _ =>
      pose proof (update_beside _ T t s) as H; unfold beside_update in H
  | |- _ (resize _ ?s) = _ =>
      pose proof (resize_beside _ T s) as H; unfold beside_resize in H
  | |- _ (mousemove _ ?x ?y ?s) = _ =>
      pose proof (mousemove_beside _ T x y s) as H; unfold beside_mousemove in H
  | E : loadModel_resume _ ?d ?s = Some ?s' |- _ ?s' = _ =>
      destruct (load_beside _ T d s s' E) as [H _]; unfold beside_load in H
  end;
  inversion H; congruence.

Section Tamed.
Variable p : Script.
Hypothesis T : Tame p.

Lemma fire_keeps {X : Type} (g : State -> X) :
  (forall s, g (resize p s) = g s) ->
  (forall x y s, g (mousemove p x y s) = g s) ->
  forall type e s, g (fire p type e s) = g s.
Proof.
  intros Hr Hm type e s. unfold fire. apply fold_left_keeps.
  intros a [n l]. simpl. destruct (String.eqb n type); [|reflexivity].
  destruct l, e; simpl; auto.
Qed.

Lemma callbacks_keep {X : Type} (g : State -> X) :
  (forall t s, g (update p t s) = g s) ->
  forall t cbs s,
    g (fold_left (fun s cb => match cb with Update => update p t s end) cbs s) = g s.
Proof.
  intros Hu t cbs s. apply fold_left_keeps. intros a []. apply Hu.
Qed.

(** Between two frames, a field that the listeners, the rest of
    [loadModel] and the settling of images and promises leave alone stays
    as it is. *)
Lemma dispatch_keeps_between_frames {X : Type} (g : State -> X) :
  (forall s, g (resize p s) = g s) ->
  (forall x y s, g (mousemove p x y s) = g s) ->
  (forall d s s', loadModel_resume p d s = Some s' -> g s' = g s) ->
  (forall v s, g (set_window v s) = g s) ->
  (forall v s, g (set_images v s) = g s) ->
  (forall v s, g (set_textures v s) = g s) ->
  (forall v s, g (set_loading v s) = g s) ->
  forall e s, frame_event e = false -> g (dispatch p e s) = g s.
Proof.
  intros Hr Hm Hl Hw Hi Ht Hld e s He.
  destruct e as [t|w h|x y|i|i|ok|d]; simpl in *; try discriminate.
  - now rewrite fire_keeps.
  - now rewrite fire_keeps.
  - destruct (nth_error (images s) i) as [img|]; [|reflexivity].
    destruct (Image.status img); try reflexivity.
    unfold run_handler, settle_image.
    destruct (Image.onload img) as [[tx]|]; now rewrite ?Ht, ?Hi.
  - destruct (nth_error (images s) i) as [img|]; [|reflexivity].
    destruct (Image.status img); try reflexivity.
    unfold run_handler, settle_image.
    destruct (Image.onerror img) as [[tx]|]; now rewrite ?Ht, ?Hi.
  - destruct (loading s); try reflexivity. apply Hld.
  - destruct (loading s); try reflexivity.
    destruct d as [d|]; [|apply Hld].
    destruct (loadModel_resume p d s) as [s'|] eqn:E; rewrite Hld; eauto.
Qed.

(** Unless an image settles, a field that the frame callback, the
    listeners and the rest of [loadModel] leave alone stays as it is. *)
Lemma dispatch_keeps_beside_images {X : Type} (g : State -> X) :
  (forall t s, g (update p t s) = g s) ->
  (forall s, g (resize p s) = g s) ->
  (forall x y s, g (mousemove p x y s) = g s) ->
  (forall d s s', loadModel_resume p d s = Some s' -> g s' = g s) ->
  (forall v s, g (set_frames v s) = g s) ->
  (forall v s, g (set_window v s) = g s) ->
  (forall v s, g (set_loading v s) = g s) ->
  forall e s,
    match e with ImageLoad _ | ImageError _ => False | _ => True end ->
    g (dispatch p e s) = g s.
Proof.
  intros Hu Hr Hm Hl Hf Hw Hld e s He.
  destruct e as [t|w h|x y|i|i|ok|d]; simpl in *; try contradiction.
  - now rewrite callbacks_keep.
  - now rewrite fire_keeps.
  - now rewrite fire_keeps.
  - destruct (loading s); try reflexivity. apply Hld.
  - destruct (loading s); try reflexivity.
    destruct d as [d|]; [|apply Hld].
    destruct (loadModel_resume p d s) as [s'|] eqn:E; rewrite Hld; eauto.
Qed.

Lemma dispatch_listeners (e : Event) (s : State) :
  listeners (dispatch p e s) = listeners s.
Proof.
  destruct (frame_event e) eqn:F.
  - destruct e; try discriminate. simpl. rewrite callbacks_keep; [reflexivity|].
    beside T.
  - apply dispatch_keeps_between_frames; try reflexivity; try assumption; beside T.
Qed.

Lemma dispatch_console (e : Event) (s : State) :
  console (dispatch p e s) = console s.
Proof.
  destruct (frame_event e) eqn:F.
  - destruct e; try discriminate. simpl. rewrite callbacks_keep; [reflexivity|].
    beside T.
  - apply dispatch_keeps_between_frames; try reflexivity; try assumption; beside T.
Qed.

(** One pending callback before an event, one after it. *)
Lemma dispatch_frames (e : Event) (s : State) :
  frames s = [Update] -> frames (dispatch p e s) = [Update].
Proof.
  intros H. destruct (frame_event e) eqn:F.
  - destruct e; try discriminate. simpl. rewrite H. simpl.
    now rewrite (update_schedules p T).
  - rewrite dispatch_keeps_between_frames; try reflexivity; try assumption; beside T.
Qed.

(** With one pending callback, a frame adds one render request, of the
    scene and camera as the callback leaves them; other events add none. *)
Lemma dispatch_requests (e : Event) (s : State) :
  frames s = [Update] ->
  requests (dispatch p e s) =
  requests s ++
  (if frame_event e
   then [request (scene (dispatch p e s)) (objects (dispatch p e s))
                 (camera (dispatch p e s))]
   else []).
Proof.
  intros H. destruct (frame_event e) eqn:F.
  - destruct e; try discriminate. simpl. rewrite H. simpl.
    now rewrite (update_renders p T).
  - rewrite app_nil_r.
    apply dispatch_keeps_between_frames; try reflexivity; try assumption; beside T.
Qed.

Lemma run_frames (es : list Event) (s : State) :
  frames s = [Update] -> frames (run p es s) = [Update].
Proof.
  apply (run_invariant p (fun s => frames s = [Update])).
  intros e s' H. now apply dispatch_frames.
Qed.

Lemma run_listeners (es : list Event) (s : State) :
  listeners (run p es s) = listeners s.
Proof.
  unfold run. apply fold_left_keeps. intros a b. apply dispatch_listeners.
Qed.

Lemma run_console (es : list Event) (s : State) :
  console (run p es s) = console s.
Proof.
  unfold run. apply fold_left_keeps. intros a b. apply dispatch_console.
Qed.

Lemma run_requests (es : list Event) :
  forall s, frames s = [Update] ->
  length (requests (run p es s)) =
  (length (requests s) + length (filter frame_event es))%nat.
Proof.
  induction es as [|e es IH]; intros s H; simpl; [lia|].
  rewrite IH by now apply dispatch_frames.
  rewrite dispatch_requests by assumption. rewrite length_app.
  destruct (frame_event e); simpl; lia.
Qed.

(** Geometries are only ever added. *)
Lemma dispatch_geometries (e : Event) (s : State) :
  exists g, geometries (dispatch p e s) = geometries s ++ g.
Proof.
  assert (K : forall s', geometries s' = geometries s ->
                         exists g, geometries s' = geometries s ++ g).
  { intros s' ->. exists []. now rewrite app_nil_r. }
  destruct e as [t|w h|x y|i|i|ok|d]; simpl.
  - apply K. rewrite callbacks_keep; [reflexivity | beside T].
  - apply K. rewrite fire_keeps; [reflexivity | beside T | beside T].
  - apply K. rewrite fire_keeps; [reflexivity | beside T | beside T].
  - apply K. destruct (nth_error (images s) i) as [img|]; [|reflexivity].
    destruct (Image.status img); try reflexivity.
    unfold run_handler. now destruct (Image.onload img) as [[tx]|].
  - apply K. destruct (nth_error (images s) i) as [img|]; [|reflexivity].
    destruct (Image.status img); try reflexivity.
    unfold run_handler. now destruct (Image.onerror img) as [[tx]|].
  - apply K. now destruct (loading s).
  - destruct (loading s); try (apply K; reflexivity).
    destruct d as [d|]; [|apply K; reflexivity].
    destruct (loadModel_resume p d s) as [s'|] eqn:E; [|apply K; reflexivity].
    destruct (load_beside p T d s s' E) as [_ [g Hg]]. exists g. exact Hg.
Qed.

Lemma run_geometries (es : list Event) :
  forall s i g,
    nth_error (geometries s) i = Some g ->
    nth_error (geometries (run p es s)) i = Some g.
Proof.
  induction es as [|e es IH]; intros s i g H; simpl; [assumption|].
  apply IH. destruct (dispatch_geometries e s) as [extra ->].
  rewrite nth_error_app1; [assumption|]. apply nth_error_Some. congruence.
Qed.

End Tamed.

(** ** The state a script leaves behind *)

Lemma add_mesh_objects (rnd : nat -> number) (g : nat) (s : State) (i : nat) :
  exists m,
    objects (SortTransparency.add_mesh rnd g s i) = objects s ++ [m] /\
    Vec3.y (Mesh.position m) = (rnd (7 * i + 1)%nat - 0.5) * 6.
Proof.
  unfold SortTransparency.add_mesh, new_mesh, over_object. simpl.
  rewrite !over_nth_last. eexists. split; reflexivity.
Qed.

Lemma setup_frames (h : Host) (k : Sample) : frames (setup h k) = [Update].
Proof.
  destruct k; reflexivity.
Qed.

Lemma setup_requests (h : Host) (k : Sample) : requests (setup h k) = [].
Proof.
  destruct k; reflexivity.
Qed.

Lemma setup_console (h : Host) (k : Sample) : console (setup h k) = [].
Proof.
  destruct k; reflexivity.
Qed.

Lemma setup_listeners (h : Host) (k : Sample) :
  listeners (setup h k) =
  match k with
  | PointLightingPage => [("resize", Resize); ("mousemove", LightFollowsMouse)]
  | _ => [("resize", Resize)]
  end.
Proof.
  destruct k; reflexivity.
Qed.

(** On a page that has run its script, a resize of the window calls
    [resize()] once, with the window at its new size. *)
Lemma resize_dispatch (h : Host) (k : Sample) (es : list Event) (w h' : number) :
  dispatch (script h k) (WindowResize w h') (run (script h k) es (setup h k)) =
  resize (script h k) (set_window (Window.mk w h') (run (script h k) es (setup h k))).
Proof.
  simpl. unfold fire.
  change (listeners (set_window _ ?s)) with (listeners s).
  rewrite (run_listeners _ (samples_tame h k)), setup_listeners.
  destruct k; reflexivity.
Qed.

Lemma resize_aspect (h : Host) (k : Sample) (s : State) :
  Camera.aspect (camera (resize (script h k) s)) =
  Some (Canvas.width (drawing_buffer (resize (script h k) s))
        / Canvas.height (drawing_buffer (resize (script h k) s))).
Proof. destruct k; reflexivity. Qed.

Lemma resize_twice (h : Host) (k : Sample) (s : State) :
  resize (script h k) (resize (script h k) s) = resize (script h k) s.
Proof. destruct k; reflexivity. Qed.

(** ** The resize handler *)

(** C1.  After the resize handler has run, the aspect ratio the camera was
    passed is the drawing-buffer width divided by the drawing-buffer height,
    as the binary64 division the handler performs gives it.  This holds for
    a call of [resize()] in any state, and for every resize of the window on
    each of the four pages, whatever happened before; two of the pages
    construct their renderer with a device-pixel ratio of 2. *)
Theorem resize_sets_aspect (h : Host) (k : Sample) :
  (forall s,
     Camera.aspect (camera (resize (script h k) s)) =
     Some (Canvas.width (drawing_buffer (resize (script h k) s))
           / Canvas.height (drawing_buffer (resize (script h k) s)))) /\
  (forall es w h',
     let s := dispatch (script h k) (WindowResize w h')
                       (run (script h k) es (setup h k)) in
     Camera.aspect (camera s) =
     Some (Canvas.width (drawing_buffer s) / Canvas.height (drawing_buffer s))).
Proof.
  split.
  - apply resize_aspect.
  - intros es w h'. cbv zeta. rewrite resize_dispatch. apply resize_aspect.
Qed.

(** C4.  Calling [resize()] a second time changes nothing: the whole page
    state, and so the drawing-buffer size and what the camera's projection
    is computed from, is as after the first call.  The same holds for two
    resize events with the same window size on each of the four pages.
    [resize] is a total function; it has no error outcome. *)
Theorem resize_idempotent (h : Host) (k : Sample) :
  (forall s,
     let once := resize (script h k) s in
     let twice := resize (script h k) once in
     twice = once /\
     drawing_buffer twice = drawing_buffer once /\
     Camera.projection (camera twice) = Camera.projection (camera once)) /\
  (forall es w h',
     let s := run (script h k) es (setup h k) in
     dispatch (script h k) (WindowResize w h')
              (dispatch (script h k) (WindowResize w h') s) =
     dispatch (script h k) (WindowResize w h') s).
Proof.
  split.
  - intros s. cbv zeta. rewrite resize_twice. auto.
  - intros es w h'. cbv zeta.
    pose proof (resize_dispatch h k (es ++ [WindowResize w h']) w h') as E2.
    rewrite run_app, !run_one in E2. rewrite E2, resize_dispatch.
    destruct k; reflexivity.
Qed.

(** ** The frame driver *)

(** C2.  Every call of the frame callback, on each of the four pages and in
    any state, adds exactly one render request, for the scene and camera as
    the callback has just left them; and after any sequence of events on a
    page the number of render requests is the number of frames among
    them. *)
Theorem one_render_per_frame (h : Host) (k : Sample) :
  (forall t s,
     let s' := update (script h k) t s in
     requests s' = requests s ++ [request (scene s') (objects s') (camera s')]) /\
  (forall es,
     length (requests (run (script h k) es (setup h k))) =
     length (filter frame_event es)).
Proof.
  split.
  - intros t s. apply (update_renders _ (samples_tame h k)).
  - intros es.
    rewrite (run_requests _ (samples_tame h k)) by apply setup_frames.
    now rewrite setup_requests.
Qed.

(** C8.  Every call of the frame callback, on each of the four pages,
    registers itself once more with [requestAnimationFrame]; so after the
    script has run, and after any sequence of events, exactly one frame
    callback is pending. *)
Theorem frame_loop_perpetual (h : Host) (k : Sample) :
  (forall t s, frames (update (script h k) t s) = frames s ++ [Update]) /\
  (forall es, frames (run (script h k) es (setup h k)) = [Update]).
Proof.
  split.
  - intros t s. apply (update_schedules _ (samples_tame h k)).
  - intros es. apply (run_frames _ (samples_tame h k)). apply setup_frames.
Qed.

(** C5.  On each of the four pages, what the frame callback makes of the
    animation state depends on the timestamp and on the animation state it
    starts from and on nothing else: started from two page states with the
    same animation state, with the same timestamp, it ends in the same
    animation state. *)
Theorem update_animation_pure (h : Host) (k : Sample) (t : number) (s1 s2 : State) :
  animation s1 = animation s2 ->
  animation (update (script h k) t s1) = animation (update (script h k) t s2).
Proof.
  intros H. destruct k; simpl;
    unfold PointLighting.update, IndexedVsNonIndexed.update,
           SortTransparency.update, Instancing.update;
    rewrite ?forEach_objects;
    destruct s1 as [w1 r1 c1 [rot1 ch1] o1 g1 u1 tx1 im1 m1 ms1 l1 f1 ls1 rq1 k1],
             s2 as [w2 r2 c2 [rot2 ch2] o2 g2 u2 tx2 im2 m2 ms2 l2 f2 ls2 rq2 k2];
    injection H as -> -> -> -> ->; try reflexivity.
  simpl. destruct m2; reflexivity.
Qed.

Lemma update_animation_pure_witness :
  let s1 := setup host0 InstancingPage in
  let s2 := set_window (Window.mk 1 1) (set_loading Fulfilled s1) in
  s1 <> s2 /\ animation s1 = animation s2 /\
  animation (update (script host0 InstancingPage) 16 s1) =
  animation (update (script host0 InstancingPage) 16 s2).
Proof.
  cbv zeta. split; [discriminate|]. split; [reflexivity|].
  apply (update_animation_pure host0 InstancingPage). reflexivity.
Defined.

(** C6.  A geometry, once constructed, stays as it is: whatever events a
    page receives (frames, resizes, mouse moves, images and promises
    settling), a geometry found under a reference before is found unchanged
    under it after.  This holds from any state of each of the four pages. *)
Theorem geometry_never_written (h : Host) (k : Sample) (es : list Event)
        (s : State) (i : nat) (g : Geometry.t) :
  nth_error (geometries s) i = Some g ->
  nth_error (geometries (run (script h k) es s)) i = Some g.
Proof. apply run_geometries. apply samples_tame. Qed.

Lemma geometry_never_written_witness :
  nth_error (geometries (setup host0 IndexedPage)) 0 =
    Some IndexedVsNonIndexed.indexedGeometry /\
  nth_error (geometries (run (script host0 IndexedPage)
                             [AnimationFrame 16; WindowResize 640 480; AnimationFrame 33]
                             (setup host0 IndexedPage))) 0 =
    Some IndexedVsNonIndexed.indexedGeometry.
Proof.
  split; [reflexivity|].
  apply (geometry_never_written host0 IndexedPage). reflexivity.
Defined.

(** ** The two quads *)

Lemma same_triangle_stream :
  triangle_stream IndexedVsNonIndexed.indexedGeometry =
  triangle_stream IndexedVsNonIndexed.nonIndexedGeometry.
Proof. reflexivity. Qed.

(** C9.  Expanding the indexed quad by its index list gives the non-indexed
    quad: for each [i] below 6, the position triple and the uv pair of the
    indexed geometry at the [i]-th index are the [i]-th position triple and
    uv pair of the non-indexed geometry. *)
Theorem indexed_expands_to_non_indexed (i : nat) :
  (i < 6)%nat ->
  exists j position uv,
    option_map (fun l => nth_error l i) (index IndexedVsNonIndexed.indexedGeometry)
      = Some (Some j) /\
    vertex IndexedVsNonIndexed.indexedGeometry "position" j = Some position /\
    vertex IndexedVsNonIndexed.nonIndexedGeometry "position" i = Some position /\
    length position = 3%nat /\
    vertex IndexedVsNonIndexed.indexedGeometry "uv" j = Some uv /\
    vertex IndexedVsNonIndexed.nonIndexedGeometry "uv" i = Some uv /\
    length uv = 2%nat.
Proof.
  intros H.
  do 6 (destruct i as [|i];
        [do 3 eexists; repeat split; vm_compute; reflexivity|]).
  lia.
Qed.

Lemma indexed_expands_to_non_indexed_witness :
  exists j position uv,
    option_map (fun l => nth_error l 4%nat) (index IndexedVsNonIndexed.indexedGeometry)
      = Some (Some j) /\
    vertex IndexedVsNonIndexed.indexedGeometry "position" j = Some position /\
    vertex IndexedVsNonIndexed.nonIndexedGeometry "position" 4 = Some position /\
    length position = 3%nat /\
    vertex IndexedVsNonIndexed.indexedGeometry "uv" j = Some uv /\
    vertex IndexedVsNonIndexed.nonIndexedGeometry "uv" 4 = Some uv /\
    length uv = 2%nat.
Proof. apply (indexed_expands_to_non_indexed 4). lia. Defined.

(** ** Sorted transparency: the meshes stay where the script put them *)

Lemma turn_position (m : Mesh.t) :
  in_range m -> Mesh.position (SortTransparency.turn m) = Mesh.position m.
Proof.
  intros [H _]. unfold SortTransparency.turn. simpl. now rewrite H.
Qed.

Lemma in_range_positions (os os' : list Mesh.t) :
  map Mesh.position os = map Mesh.position os' ->
  Forall in_range os' -> Forall in_range os.
Proof.
  intros E H.
  change in_range
    with (fun m => (fun v => (Vec3.y v <? -3) = false /\ (-3 <=? Vec3.y v) = true
                             /\ (Vec3.y v <=? 3) = true) (Mesh.position m)) in *.
  rewrite <- Forall_map in *. now rewrite E.
Qed.

Lemma forEach_positions (ms : list nat) :
  forall os,
    Forall in_range os ->
    map Mesh.position (fold_left (fun os m => over_nth m SortTransparency.turn os) ms os)
    = map Mesh.position os.
Proof.
  induction ms as [|m ms IH]; intros os H; simpl; [reflexivity|].
  assert (E : map Mesh.position (over_nth m SortTransparency.turn os)
              = map Mesh.position os).
  { apply map_over_nth_keeps. eapply Forall_impl; [|exact H].
    intros a. apply turn_position. }
  rewrite IH; [exact E|]. now apply (in_range_positions _ os).
Qed.

Lemma update_positions (t : number) (s : State) :
  Forall in_range (objects s) ->
  map Mesh.position (objects (SortTransparency.update t s))
  = map Mesh.position (objects s).
Proof.
  intros H. unfold SortTransparency.update. rewrite forEach_objects.
  apply (forEach_positions (meshes s) (objects s) H).
Qed.

Lemma dispatch_positions (e : Event) (s : State) :
  Forall in_range (objects s) ->
  map Mesh.position (objects (dispatch SortTransparency.script e s))
  = map Mesh.position (objects s).
Proof.
  intros H. destruct (frame_event e) eqn:F.
  - destruct e as [t| | | | | |]; try discriminate. simpl.
    apply (fold_left_invariant
             (fun s cb => match cb with Update => SortTransparency.update t s end)
             (fun s' => map Mesh.position (objects s') = map Mesh.position (objects s))).
    + intros a [] Ha. rewrite update_positions; [exact Ha|].
      now apply (in_range_positions _ (objects s)).
    + reflexivity.
  - f_equal. apply (dispatch_keeps_between_frames SortTransparency.script);
      try reflexivity; try assumption.
    intros d a a' E. now injection E as <-.
Qed.

Lemma add_meshes_in_range (rnd : nat -> number) (g : nat) (l : list nat) :
  unit_interval rnd ->
  forall s, Forall in_range (objects s) ->
            Forall in_range (objects (fold_left (SortTransparency.add_mesh rnd g) l s)).
Proof.
  intros U.
  apply (fold_left_invariant (SortTransparency.add_mesh rnd g)
                             (fun s => Forall in_range (objects s))).
  intros s i H.
  destruct (add_mesh_objects rnd g s i) as (m & -> & Hy).
  apply Forall_app. split; [assumption|]. constructor; [|constructor].
  unfold in_range. rewrite Hy. apply centred_in_range; apply U.
Qed.

Lemma objects_requestAnimationFrame (cb : Callback) (s : State) :
  objects (requestAnimationFrame cb s) = objects s.
Proof. reflexivity. Qed.

Lemma setup_in_range (rnd : nat -> number) (w h : number) :
  unit_interval rnd -> Forall in_range (objects (SortTransparency.setup rnd w h)).
Proof.
  intros U. unfold SortTransparency.setup, new_geometry, new_texture.
  cbv beta zeta iota.
  rewrite objects_requestAnimationFrame.
  apply add_meshes_in_range; [assumption|]. apply Forall_nil.
Qed.

(** C10.  On the sorted-transparency page, with [Math.random()] returning
    numbers from 0 up to but not including 1, the script places fifty
    meshes, each at a height that is at least [-3] and at most [3]; the test
    of the wrap branch, height below [-3], fails for each of them; and after
    any sequence of events every mesh is at the position the script gave
    it, so the test still fails. *)
Theorem positions_fixed (rnd : nat -> number) (w h : number) (es : list Event) :
  unit_interval rnd ->
  let s0 := SortTransparency.setup rnd w h in
  let s := run SortTransparency.script es s0 in
  length (objects s0) = 50%nat /\
  Forall in_range (objects s0) /\
  map Mesh.position (objects s) = map Mesh.position (objects s0) /\
  Forall in_range (objects s).
Proof.
  intros U s0 s. split; [reflexivity|]. split; [now apply setup_in_range|].
  assert (K : map Mesh.position (objects s) = map Mesh.position (objects s0)).
  { subst s. generalize (setup_in_range rnd w h U). fold s0.
    generalize s0. clear s0.
    induction es as [|e es IH] using rev_ind; intros s0 H; [reflexivity|].
    rewrite run_app, run_one.
    rewrite dispatch_positions; [now apply IH|].
    apply (in_range_positions _ (objects s0)); [now apply IH | assumption]. }
  split; [exact K|].
  apply (in_range_positions _ (objects s0) K). now apply setup_in_range.
Qed.

Lemma positions_fixed_witness :
  let rnd := fun k : nat => if Nat.even k then 0 else 0.999 in
  let es := [AnimationFrame 16; WindowResize 640 480; AnimationFrame 33] in
  let s0 := SortTransparency.setup rnd 800 600 in
  let s := run SortTransparency.script es s0 in
  unit_interval rnd /\
  length (objects s0) = 50%nat /\
  Forall in_range (objects s0) /\
  map Mesh.position (objects s) = map Mesh.position (objects s0) /\
  Forall in_range (objects s).
Proof.
  cbv zeta.
  assert (U : unit_interval (fun k : nat => if Nat.even k then 0 else 0.999)).
  { intros k. destruct (Nat.even k); split; reflexivity. }
  split; [exact U|].
  exact (positions_fixed _ 800 600
           [AnimationFrame 16; WindowResize 640 480; AnimationFrame 33] U).
Defined.

(** ** Instancing: the model arrives while the loop runs *)

Lemma f32_set_fits (values : list number) (offset : nat) (arr : list number) :
  (offset + length values <= length arr)%nat ->
  exists arr', f32_set values offset arr = Some arr' /\ length arr' = length arr.
Proof.
  intros H. unfold f32_set.
  destruct (Nat.leb_spec (offset + length values) (length arr)) as [_|]; [|lia].
  eexists. split; [reflexivity|].
  rewrite !length_app, length_map, length_firstn, length_skipn. lia.
Qed.

Lemma fill_fits (rnd : nat -> number) (i : nat) (offset random : list number) :
  (i < Instancing.num)%nat ->
  length offset = (Instancing.num * 3)%nat -> length random = (Instancing.num * 3)%nat ->
  exists offset' random',
    Instancing.fill rnd (Some (offset, random)) i = Some (offset', random') /\
    length offset' = (Instancing.num * 3)%nat /\
    length random' = (Instancing.num * 3)%nat.
Proof.
  unfold Instancing.num. intros Hi Ho Hr. unfold Instancing.fill.
  destruct (f32_set_fits [rnd (6 * i + 0)%nat * 2 - 1; rnd (6 * i + 1)%nat * 2 - 1;
                          rnd (6 * i + 2)%nat * 2 - 1] (i * 3) offset)
    as (o' & -> & Ho'); [simpl; lia|].
  destruct (f32_set_fits [rnd (6 * i + 3)%nat; rnd (6 * i + 4)%nat; rnd (6 * i + 5)%nat]
                         (i * 3) random)
    as (r' & -> & Hr'); [simpl; lia|].
  exists o', r'. repeat split; congruence.
Qed.

(** The loop of [loadModel] stays within its two arrays: it never throws. *)
Lemma loop_fits (rnd : nat -> number) :
  exists offset random,
    fold_left (Instancing.fill rnd) (seq 0 Instancing.num)
              (Some (Float32Array_zeros (Instancing.num * 3),
                     Float32Array_zeros (Instancing.num * 3)))
    = Some (offset, random).
Proof.
  assert (G : forall l offset random,
             Forall (fun i => (i < Instancing.num)%nat) l ->
             length offset = (Instancing.num * 3)%nat ->
             length random = (Instancing.num * 3)%nat ->
             exists offset' random',
               fold_left (Instancing.fill rnd) l (Some (offset, random))
               = Some (offset', random')).
  { induction l as [|i l IH]; intros offset random Hl Ho Hr; cbn [fold_left].
    - eauto.
    - inversion Hl as [|? ? Hi Hl']; subst.
      destruct (fill_fits rnd i offset random Hi Ho Hr) as (o' & r' & -> & Ho' & Hr').
      now apply IH. }
  apply G.
  - apply Forall_forall. intros i Hi. apply in_seq in Hi. lia.
  - apply repeat_length.
  - apply repeat_length.
Qed.

(** Given the parsed model, the rest of [loadModel] constructs one geometry
    and one mesh, binds [mesh] to it and attaches it to the scene. *)
Lemma loadModel_resume_runs (rnd : nat -> number) (data : ModelData.t) (s : State) :
  exists g,
    Instancing.loadModel_resume rnd data s =
    Some (setParent (length (objects s))
            (set_mesh (Some (length (objects s)))
               (set_objects (objects s ++ [Mesh.create (length (geometries s))])
                  (set_geometries (geometries s ++ [g]) s)))).
Proof.
  unfold Instancing.loadModel_resume.
  destruct (loop_fits rnd) as (offset & random & ->).
  eexists. reflexivity.
Qed.

Lemma addChild_In (child : nat) (p : Transform.t) :
  In child (Transform.children (Transform.addChild child p)).
Proof.
  unfold Transform.addChild.
  destruct (existsb (Nat.eqb child) (Transform.children p)) eqn:E.
  - apply existsb_exists in E. destruct E as (c & Hc & Heq).
    apply Nat.eqb_eq in Heq. now subst.
  - simpl. apply in_or_app. right. now left.
Qed.

(** C3.  On the instancing page, in a state where the model has not loaded
    ([loadModel] is suspended and [mesh] is unset) and the frame callback is
    pending: a frame leaves the meshes alone, rotating nothing, and renders;
    when [loadModel] then runs to its end, [mesh] is a new mesh attached to
    the scene, and neither the pending callback nor the render requests are
    touched; the next frame turns that mesh by [-0.005] about y, renders
    it, and leaves one callback pending. *)
Theorem late_model_joins_loop (rnd : nat -> number) (data : ModelData.t)
        (t0 t1 : number) (s : State) :
  loading s = AwaitingJson -> mesh s = None -> frames s = [Update] ->
  let p := Instancing.script rnd in
  let before := dispatch p (AnimationFrame t0) s in
  let loaded := dispatch p (JsonSettled (Some data)) before in
  let after := dispatch p (AnimationFrame t1) loaded in
  (objects before = objects s /\ mesh before = None /\
   requests before =
   requests s ++ [request (scene before) (objects before) (camera before)]) /\
  exists m g,
    mesh loaded = Some m /\
    nth_error (objects loaded) m = Some (Mesh.create g) /\
    In m (Transform.children (scene loaded)) /\
    frames loaded = frames before /\ frames loaded = [Update] /\
    requests loaded = requests before /\
    nth_error (objects after) m =
      Some (Mesh.over_rotation (Vec3.over_y (fun a => a - 5e-3)) (Mesh.create g)) /\
    In m (Transform.children (scene after)) /\
    requests after =
      requests loaded ++ [request (scene after) (objects after) (camera after)] /\
    frames after = [Update].
Proof.
  intros Hl Hm Hf p before loaded after.
  assert (Eb : before =
               render (set_uniform "uTime" (UNumber (t0 * 1e-3))
                         (requestAnimationFrame Update (set_frames [] s)))).
  { unfold before. rewrite dispatch_frame_one by assumption.
    unfold p, Instancing.script. cbn [update]. unfold Instancing.update.
    change (mesh (requestAnimationFrame Update (set_frames [] s))) with (mesh s).
    now rewrite Hm. }
  clearbody before.
  destruct (loadModel_resume_runs rnd data before) as [g Hg].
  assert (El : loaded =
               set_loading Fulfilled
                 (setParent (length (objects before))
                    (set_mesh (Some (length (objects before)))
                       (set_objects (objects before ++ [Mesh.create (length (geometries before))])
                          (set_geometries (geometries before ++ [g]) before))))).
  { unfold loaded. rewrite dispatch_json by (rewrite Eb; exact Hl).
    unfold p, Instancing.script. cbn [loadModel_resume]. now rewrite Hg. }
  clearbody loaded.
  assert (Fb : frames before = [Update]) by (rewrite Eb; reflexivity).
  assert (Fl : frames loaded = [Update]) by (rewrite El; exact Fb).
  assert (Ea : after =
               render (set_uniform "uTime" (UNumber (t1 * 1e-3))
                         (over_object (length (objects before))
                            (Mesh.over_rotation (Vec3.over_y (fun a => a - 5e-3)))
                            (requestAnimationFrame Update (set_frames [] loaded))))).
  { unfold after. rewrite dispatch_frame_one by assumption.
    unfold p, Instancing.script. cbn [update]. unfold Instancing.update.
    replace (mesh (requestAnimationFrame Update (set_frames [] loaded)))
      with (Some (length (objects before))) by (rewrite El; reflexivity).
    reflexivity. }
  clearbody after. clear p.
  split.
  { rewrite Eb. repeat split. exact Hm. }
  exists (length (objects before)), (length (geometries before)).
  repeat split.
  - rewrite El. reflexivity.
  - rewrite El. cbn. rewrite nth_error_app2 by lia. now rewrite Nat.sub_diag.
  - rewrite El. cbn. apply addChild_In.
  - rewrite El. reflexivity.
  - exact Fl.
  - rewrite El. reflexivity.
  - rewrite Ea. cbn. rewrite nth_error_over_nth, Nat.eqb_refl.
    rewrite El. cbn. rewrite nth_error_app2 by lia. now rewrite Nat.sub_diag.
  - rewrite Ea. cbn. rewrite El. cbn. apply addChild_In.
  - rewrite Ea. reflexivity.
  - rewrite Ea. reflexivity.
Qed.

Lemma late_model_joins_loop_witness :
  let p := Instancing.script (rnd host0) in
  let s := run p [AnimationFrame 0; FetchSettled true] (setup host0 InstancingPage) in
  let before := dispatch p (AnimationFrame 16) s in
  let loaded :=
    dispatch p (JsonSettled (Some (ModelData.mk [0; 1; 0] [0.5; 0.5] [0; 0; 1]))) before in
  let after := dispatch p (AnimationFrame 33) loaded in
  (loading s = AwaitingJson /\ mesh s = None /\ frames s = [Update]) /\
  (objects before = objects s /\ mesh before = None /\
   requests before =
   requests s ++ [request (scene before) (objects before) (camera before)]) /\
  exists m g,
    mesh loaded = Some m /\
    nth_error (objects loaded) m = Some (Mesh.create g) /\
    In m (Transform.children (scene loaded)) /\
    frames loaded = frames before /\ frames loaded = [Update] /\
    requests loaded = requests before /\
    nth_error (objects after) m =
      Some (Mesh.over_rotation (Vec3.over_y (fun a => a - 5e-3)) (Mesh.create g)) /\
    In m (Transform.children (scene after)) /\
    requests after =
      requests loaded ++ [request (scene after) (objects after) (camera after)] /\
    frames after = [Update].
Proof.
  cbv zeta. split; [repeat split|].
  apply (late_model_joins_loop (rnd host0)
           (ModelData.mk [0; 1; 0] [0.5; 0.5] [0; 0; 1]) 16 33); reflexivity.
Defined.

(** ** Asset loads that fail *)

Lemma run_cons (p : Script) (e : Event) (es : list Event) (s : State) :
  run p (e :: es) s = run p es (dispatch p e s).
Proof. reflexivity. Qed.

Lemma images_run_handler (h : option Handler) (i : nat) (s : State) :
  images (run_handler h i s) = images s.
Proof. now destruct h as [[tx]|]. Qed.

Lemma feeds_texture_there (s : State) (i : nat) (img : Image.t) :
  images_feed s -> nth_error (images s) i = Some img ->
  exists tx, nth_error (textures s) i = Some tx /\ image_feeds i img tx.
Proof.
  intros [Hlen Hall] Hi.
  destruct (nth_error (textures s) i) as [tx|] eqn:Ht.
  - exists tx. split; [reflexivity|]. now apply Hall.
  - apply nth_error_None in Ht.
    assert (i < length (images s))%nat by (apply nth_error_Some; congruence). lia.
Qed.

Lemma feeds_no_error_handler (s : State) : images_feed s -> no_error_handler s.
Proof.
  intros H i img Hi. destruct (feeds_texture_there s i img H Hi) as (tx & _ & F).
  apply F.
Qed.

Lemma broken_texture_empty (s : State) (i : nat) :
  images_feed s -> image_status s i = Some Broken -> texture_image s i = Some None.
Proof.
  intros H Hb. unfold image_status, texture_image in *.
  destruct (nth_error (images s) i) as [img|] eqn:Hi; [|discriminate].
  destruct (feeds_texture_there s i img H Hi) as (tx & -> & _ & _ & F).
  simpl in *. injection Hb as Hb. now rewrite F, Hb.
Qed.

Section Settling.
Variable p : Script.
Hypothesis T : Tame p.

Lemma dispatch_images_feed (e : Event) (s : State) :
  images_feed s -> images_feed (dispatch p e s).
Proof.
  intros H.
  assert (K : forall s', images s' = images s -> textures s' = textures s ->
                         images_feed s').
  { intros s' Ei Et. unfold images_feed. now rewrite Ei, Et. }
  destruct e as [t|w h|x y|i|i|ok|d];
    try (apply K; apply (dispatch_keeps_beside_images p);
         try reflexivity; try exact I; beside T).
  - simpl. destruct (nth_error (images s) i) as [img|] eqn:Ei; [|assumption].
    destruct (Image.status img) eqn:St; try assumption.
    destruct (feeds_texture_there s i img H Ei) as (tx & Et & Hon & Herr & Him).
    rewrite Hon. unfold run_handler, settle_image, images_feed.
    cbn [images textures set_textures set_images].
    destruct H as [Hlen Hall]. split; [now rewrite !length_over_nth|].
    intros j img' tx'. rewrite !nth_error_over_nth.
    destruct (Nat.eqb_spec j i) as [->|]; [|apply Hall].
    rewrite Ei, Et. simpl. intros [= <-] [= <-]. now repeat split.
  - simpl. destruct (nth_error (images s) i) as [img|] eqn:Ei; [|assumption].
    destruct (Image.status img) eqn:St; try assumption.
    destruct (feeds_texture_there s i img H Ei) as (tx & Et & Hon & Herr & Him).
    rewrite Herr. unfold run_handler, settle_image, images_feed.
    cbn [images textures set_images].
    destruct H as [Hlen Hall]. split; [now rewrite length_over_nth|].
    intros j img' tx'. rewrite nth_error_over_nth.
    destruct (Nat.eqb_spec j i) as [->|]; [|apply Hall].
    rewrite Ei, Et. simpl. intros [= <-] [= <-].
    rewrite St in Him. now repeat split.
Qed.

(** An image that has failed stays failed. *)
Lemma dispatch_broken (e : Event) (s : State) (i : nat) :
  image_status s i = Some Broken -> image_status (dispatch p e s) i = Some Broken.
Proof.
  intros H. unfold image_status in *.
  assert (K : forall j st,
             match nth_error (images s) j with
             | Some img => Image.status img = Loading
             | None => False
             end ->
             option_map Image.status
               (nth_error (over_nth j (Image.set_status st) (images s)) i)
             = Some Broken).
  { intros j st Hj. rewrite nth_error_over_nth.
    destruct (Nat.eqb_spec i j) as [->|]; [|assumption].
    destruct (nth_error (images s) j) as [img|]; [|contradiction].
    simpl in H. congruence. }
  destruct e as [t|w h|x y|j|j|ok|d];
    try (rewrite (dispatch_keeps_beside_images p images);
         try reflexivity; try exact I; try assumption; beside T).
  - simpl. destruct (nth_error (images s) j) as [img|] eqn:Ej; [|assumption].
    destruct (Image.status img) eqn:St; try assumption.
    rewrite images_run_handler. apply K. now rewrite Ej.
  - simpl. destruct (nth_error (images s) j) as [img|] eqn:Ej; [|assumption].
    destruct (Image.status img) eqn:St; try assumption.
    rewrite images_run_handler. apply K. now rewrite Ej.
Qed.

Lemma image_error_breaks (s : State) (i : nat) :
  image_status s i = Some Loading ->
  image_status (dispatch p (ImageError i) s) i = Some Broken.
Proof.
  unfold image_status. intros H. simpl.
  destruct (nth_error (images s) i) as [img|] eqn:Ei; [|discriminate].
  simpl in H. injection H as ->.
  rewrite images_run_handler. unfold settle_image. cbn [images set_images].
  now rewrite nth_error_over_nth, Nat.eqb_refl, Ei.
Qed.

(** Once [loadModel] is no longer suspended, its stage no longer moves. *)
Lemma dispatch_loading_settled (e : Event) (s : State) :
  loading s <> AwaitingFetch -> loading s <> AwaitingJson ->
  loading (dispatch p e s) = loading s.
Proof.
  intros H1 H2.
  destruct e as [t|w h|x y|i|i|ok|d]; simpl.
  - rewrite callbacks_keep; [reflexivity | beside T].
  - rewrite fire_keeps; [reflexivity | beside T | beside T].
  - rewrite fire_keeps; [reflexivity | beside T | beside T].
  - destruct (nth_error (images s) i) as [img|]; [|reflexivity].
    destruct (Image.status img); try reflexivity.
    now destruct (Image.onload img) as [[tx]|].
  - destruct (nth_error (images s) i) as [img|]; [|reflexivity].
    destruct (Image.status img); try reflexivity.
    now destruct (Image.onerror img) as [[tx]|].
  - destruct (loading s) eqn:E; congruence.
  - destruct (loading s) eqn:E; congruence.
Qed.

End Settling.

Lemma setup_images_feed (h : Host) (k : Sample) : images_feed (setup h k).
Proof.
  destruct k; (split; [reflexivity|]); intros i img tx Hi Ht;
    repeat (destruct i as [|i]; cbn in Hi, Ht;
            [injection Hi as <-; injection Ht as <-; now repeat split|]);
    destruct i; discriminate.
Qed.

Lemma run_images_feed (h : Host) (k : Sample) (es : list Event) :
  images_feed (run (script h k) es (setup h k)).
Proof.
  apply run_invariant; [|apply setup_images_feed].
  intros e s. apply dispatch_images_feed, samples_tame.
Qed.

(** The pages without a model never call [loadModel]. *)
Lemma run_not_called (h : Host) (k : Sample) (es : list Event) :
  k <> InstancingPage -> loading (run (script h k) es (setup h k)) = NotCalled.
Proof.
  intros Hk.
  apply (run_invariant (script h k) (fun s => loading s = NotCalled)).
  - intros e s H. rewrite dispatch_loading_settled; try congruence.
    apply samples_tame.
  - destruct k; try reflexivity. contradiction.
Qed.

Lemma update_model_state (t : number) (s : State) :
  model_state s -> model_state (Instancing.update t s).
Proof.
  unfold model_state, Instancing.update.
  change (mesh (requestAnimationFrame Update s)) with (mesh s).
  destruct (mesh s) as [m|] eqn:Em; cbn [loading render set_requests set_uniform
    set_uniforms over_object set_objects requestAnimationFrame set_frames];
    destruct (loading s); try tauto; unfold model_absent;
    cbn [mesh objects scene geometries render set_requests set_uniform set_uniforms
         over_object set_objects requestAnimationFrame set_frames];
    rewrite ?Em, ?length_over_nth; try tauto;
    intros (H & _); discriminate.
Qed.

Lemma model_state_ext (s s' : State) :
  (loading s', mesh s', objects s', geometries s', scene s')
  = (loading s, mesh s, objects s, geometries s, scene s) ->
  model_state s -> model_state s'.
Proof.
  intros E. injection E as E1 E2 E3 E4 E5.
  unfold model_state, model_absent. now rewrite E1, E2, E3, E4, E5.
Qed.

Lemma dispatch_model_state (rnd : nat -> number) (e : Event) (s : State) :
  model_state s -> model_state (dispatch (Instancing.script rnd) e s).
Proof.
  intros H. destruct e as [t|w h|x y|i|i|ok|d]; unfold dispatch;
    cbn [update loadModel_resume Instancing.script].
  - apply (fold_left_invariant
             (fun s cb => match cb with Update => Instancing.update t s end) model_state).
    + intros a [] Ha. now apply update_model_state.
    + exact H.
  - apply (model_state_ext s); [|exact H].
    now rewrite (fire_keeps (Instancing.script rnd)
                   (fun s => (loading s, mesh s, objects s, geometries s, scene s))).
  - apply (model_state_ext s); [|exact H].
    now rewrite (fire_keeps (Instancing.script rnd)
                   (fun s => (loading s, mesh s, objects s, geometries s, scene s))).
  - destruct (nth_error (images s) i) as [img|]; [|assumption].
    destruct (Image.status img); try assumption.
    apply (model_state_ext s); [|exact H]. now destruct (Image.onload img) as [[tx]|].
  - destruct (nth_error (images s) i) as [img|]; [|assumption].
    destruct (Image.status img); try assumption.
    apply (model_state_ext s); [|exact H]. now destruct (Image.onerror img) as [[tx]|].
  - unfold model_state in *. destruct (loading s) eqn:E; try (now rewrite E).
    now destruct ok.
  - unfold model_state in *. destruct (loading s) eqn:E; try (now rewrite E).
    destruct d as [d|]; [|exact H].
    destruct (loadModel_resume_runs rnd d s) as [g ->].
    destruct H as (Hm & Ho & Hc & Hg). destruct (scene s) as [rot ch] eqn:Es.
    simpl in Hc. subst ch.
    cbn. rewrite Ho, Hg, Es. now repeat split.
Qed.

Lemma run_model_state (h : Host) (es : list Event) :
  model_state (run (script h InstancingPage) es (setup h InstancingPage)).
Proof.
  apply run_invariant.
  - intros e s. apply dispatch_model_state.
  - unfold model_state, model_absent. simpl. now repeat split.
Qed.

(** C7.  On each of the four pages, when an asset load fails (an image
    that was loading errors, the fetch of the model rejects, or its body
    does not parse) then, whatever events follow, what the load was to
    bring stays absent: the texture has no image, or there is no instanced
    mesh and [loadModel] stays rejected.  No image element has an error
    handler, the page reports nothing, and the frame loop goes on: one
    callback stays pending and every later frame adds its render
    request. *)
Theorem failed_load_stays_absent (h : Host) (k : Sample) (es1 es2 : list Event)
        (e : Event) :
  let s1 := run (script h k) es1 (setup h k) in
  let s2 := run (script h k) (e :: es2) s1 in
  fails s1 e ->
  absent_after e s2 /\
  no_error_handler s2 /\
  console s2 = [] /\
  frames s2 = [Update] /\
  length (requests s2) = (length (requests s1) + length (filter frame_event es2))%nat.
Proof.
  intros s1 s2 F.
  pose proof (samples_tame h k) as T.
  assert (E2 : s2 = run (script h k) (es1 ++ e :: es2) (setup h k))
    by (unfold s2, s1; now rewrite run_app).
  assert (F1 : frames s1 = [Update]) by (apply (run_frames _ T), setup_frames).
  assert (I2 : images_feed s2) by (rewrite E2; apply run_images_feed).
  assert (Q : frame_event e = false) by (destruct F; reflexivity).
  split; [|split; [|split; [|split]]].
  - destruct F as [i Hi|Hl|Hl]; unfold absent_after.
    + assert (B : image_status s2 i = Some Broken).
      { unfold s2. rewrite run_cons.
        apply (run_invariant (script h k) (fun s => image_status s i = Some Broken)).
        - intros e' s'. now apply dispatch_broken.
        - now apply image_error_breaks. }
      split; [exact B|]. now apply broken_texture_empty.
    + destruct k; try (unfold s1 in Hl; rewrite run_not_called in Hl; discriminate).
      assert (R : loading s2 = Rejected).
      { unfold s2. rewrite run_cons.
        apply (run_invariant _ (fun s => loading s = Rejected)).
        - intros e' s' H'. rewrite (dispatch_loading_settled _ T); congruence.
        - simpl. now rewrite Hl. }
      split; [exact R|].
      pose proof (run_model_state h (es1 ++ FetchSettled false :: es2)) as M.
      rewrite <- E2 in M. unfold model_state in M. now rewrite R in M.
    + destruct k; try (unfold s1 in Hl; rewrite run_not_called in Hl; discriminate).
      assert (R : loading s2 = Rejected).
      { unfold s2. rewrite run_cons.
        apply (run_invariant _ (fun s => loading s = Rejected)).
        - intros e' s' H'. rewrite (dispatch_loading_settled _ T); congruence.
        - simpl. now rewrite Hl. }
      split; [exact R|].
      pose proof (run_model_state h (es1 ++ JsonSettled None :: es2)) as M.
      rewrite <- E2 in M. unfold model_state in M. now rewrite R in M.
  - now apply feeds_no_error_handler.
  - rewrite E2, (run_console _ T). apply setup_console.
  - rewrite E2. apply (run_frames _ T), setup_frames.
  - unfold s2. rewrite (run_requests _ T) by exact F1.
    cbn [filter]. now rewrite Q.
Qed.

Lemma failed_load_stays_absent_witness :
  let p := script host0 InstancingPage in
  let s1 := run p [AnimationFrame 0; FetchSettled true] (setup host0 InstancingPage) in
  let e := JsonSettled None in
  let es2 := [AnimationFrame 16; ImageLoad 0; AnimationFrame 33] in
  let s2 := run p (e :: es2) s1 in
  fails s1 e /\
  absent_after e s2 /\
  no_error_handler s2 /\
  console s2 = [] /\
  frames s2 = [Update] /\
  length (requests s2) = (length (requests s1) + length (filter frame_event es2))%nat.
Proof.
  cbv zeta. split; [apply json_fails; reflexivity|].
  apply (failed_load_stays_absent host0 InstancingPage
           [AnimationFrame 0; FetchSettled true]
           [AnimationFrame 16; ImageLoad 0; AnimationFrame 33] (JsonSettled None)).
  apply json_fails. reflexivity.
Defined.

(** * Further properties *)

(** ** Uniforms *)

Lemma find_key_map (name name' : string) (v : Uniform) (l : list (string * Uniform)) :
  option_map snd
    (find (fun kv => String.eqb (fst kv) name)
          (map (fun kv => if String.eqb (fst kv) name' then (fst kv, v) else kv) l))
  = if String.eqb name name'
    then option_map (fun _ => v) (find (fun kv => String.eqb (fst kv) name) l)
    else option_map snd (find (fun kv => String.eqb (fst kv) name) l).
Proof.
  induction l as [|[k u] l IH]; simpl.
  - now destruct (String.eqb name name').
  - destruct (String.eqb_spec k name') as [->|Hk]; simpl.
    + rewrite String.eqb_sym. destruct (String.eqb_spec name name') as [->|Hn].
      * reflexivity.
      * exact IH.
    + destruct (String.eqb_spec k name) as [->|Hn]; simpl.
      * destruct (String.eqb_spec name name') as [->|]; [contradiction|reflexivity].
      * exact IH.
Qed.

Lemma uniform_set_other (name name' : string) (v : Uniform) (s : State) :
  name <> name' -> uniform name (set_uniform name' v s) = uniform name s.
Proof.
  intros H. unfold uniform, set_uniform. cbn [uniforms set_uniforms].
  rewrite find_key_map. now destruct (String.eqb_spec name name').
Qed.

Lemma uniform_set_same (name : string) (v : Uniform) (s : State) :
  uniform name s <> None -> uniform name (set_uniform name v s) = Some v.
Proof.
  intros H. unfold uniform, set_uniform in *. cbn [uniforms set_uniforms].
  rewrite find_key_map, String.eqb_refl.
  now destruct (find _ (uniforms s)).
Qed.

Lemma fire_keeps_no_mouse {X : Type} (p : Script) (g : State -> X) :
  (forall s, g (resize p s) = g s) ->
  forall type e s, mouse_event e = false -> g (fire p type e s) = g s.
Proof.
  intros Hr type e s He. unfold fire. apply fold_left_keeps.
  intros a [n l]. simpl. destruct (String.eqb n type); [|reflexivity].
  destruct l, e; simpl; auto; discriminate.
Qed.

(** ** Point lighting: the light follows the mouse *)

Lemma mousemove_dispatch (h : Host) (es : list Event) (x y : number) :
  dispatch (script h PointLightingPage) (DocumentMouseMove x y)
           (run (script h PointLightingPage) es (setup h PointLightingPage)) =
  PointLighting.mousemove x y
    (run (script h PointLightingPage) es (setup h PointLightingPage)).
Proof.
  unfold dispatch, fire.
  rewrite (run_listeners _ (samples_tame h PointLightingPage)), setup_listeners.
  reflexivity.
Qed.

Lemma point_lighting_update_light (orbit : Camera.t -> Camera.t) (t : number) (s : State) :
  uniform "u_lightWorldPosition" (PointLighting.update orbit t s)
  = uniform "u_lightWorldPosition" s.
Proof.
  unfold PointLighting.update.
  change (uniform "u_lightWorldPosition" (render ?a)) with (uniform "u_lightWorldPosition" a).
  change (uniform "u_lightWorldPosition" (set_camera ?c ?a))
    with (uniform "u_lightWorldPosition" a).
  now rewrite uniform_set_other by discriminate.
Qed.

(** Only a mouse move changes where the light is. *)
Lemma point_lighting_light_kept (orbit : Camera.t -> Camera.t) (e : Event) (s : State) :
  mouse_event e = false ->
  uniform "u_lightWorldPosition" (dispatch (PointLighting.script orbit) e s)
  = uniform "u_lightWorldPosition" s.
Proof.
  intros He. destruct e as [t|w h|x y|i|i|ok|d]; try discriminate; unfold dispatch;
    cbn [update resize loadModel_resume PointLighting.script].
  - rewrite (fold_left_keeps _ (uniform "u_lightWorldPosition")); [reflexivity|].
    intros a []. apply point_lighting_update_light.
  - now rewrite fire_keeps_no_mouse.
  - destruct (nth_error (images s) i) as [img|]; [|reflexivity].
    destruct (Image.status img); try reflexivity.
    now destruct (Image.onload img) as [[tx]|].
  - destruct (nth_error (images s) i) as [img|]; [|reflexivity].
    destruct (Image.status img); try reflexivity.
    now destruct (Image.onerror img) as [[tx]|].
  - now destruct (loading s).
  - destruct (loading s); try reflexivity. now destruct d.
Qed.

Lemma point_lighting_light_present (h : Host) (es : list Event) :
  uniform "u_lightWorldPosition"
    (run (script h PointLightingPage) es (setup h PointLightingPage)) <> None.
Proof.
  induction es as [|e es IH] using rev_ind; [discriminate|].
  rewrite run_app, run_one. destruct (mouse_event e) eqn:He.
  - destruct e; try discriminate. rewrite mousemove_dispatch.
    unfold PointLighting.mousemove. now rewrite uniform_set_same.
  - simpl script. now rewrite point_lighting_light_kept.
Qed.

(** X1.  On the point-lighting page, after a mouse move at [(x, y)] the
    light uniform is [[x - innerWidth / 2, -(y - innerHeight / 2), 40]], with
    the window size of that moment, and it stays so over frames, resizes and
    loads until the mouse moves again. *)
Theorem light_follows_mouse (h : Host) (es1 es2 : list Event) (x y : number) :
  forallb (fun e => negb (mouse_event e)) es2 = true ->
  let p := script h PointLightingPage in
  let s1 := run p es1 (setup h PointLightingPage) in
  uniform "u_lightWorldPosition" (run p (DocumentMouseMove x y :: es2) s1) =
  Some (UArray [x - Window.innerWidth (window s1) / 2;
                - (y - Window.innerHeight (window s1) / 2);
                40]).
Proof.
  intros H p s1. rewrite run_cons.
  assert (K : forall es s,
             forallb (fun e => negb (mouse_event e)) es = true ->
             uniform "u_lightWorldPosition" (run p es s)
             = uniform "u_lightWorldPosition" s).
  { induction es as [|e es IH]; intros s He; [reflexivity|].
    simpl in He. apply andb_prop in He. destruct He as [He Hes].
    rewrite run_cons, IH by assumption.
    apply point_lighting_light_kept. now destruct (mouse_event e). }
  rewrite K by assumption. unfold p, s1. rewrite mousemove_dispatch.
  unfold PointLighting.mousemove. apply uniform_set_same.
  apply point_lighting_light_present.
Qed.

Lemma light_follows_mouse_witness :
  let es1 := [AnimationFrame 0] in
  let es2 := [AnimationFrame 16; WindowResize 640 480; ImageLoad 1; AnimationFrame 33] in
  let p := script host0 PointLightingPage in
  let s1 := run p es1 (setup host0 PointLightingPage) in
  forallb (fun e => negb (mouse_event e)) es2 = true /\
  uniform "u_lightWorldPosition" (run p (DocumentMouseMove 500 100 :: es2) s1) =
  Some (UArray [500 - Window.innerWidth (window s1) / 2;
                - (100 - Window.innerHeight (window s1) / 2);
                40]).
Proof.
  cbv zeta. split; [reflexivity|].
  exact (light_follows_mouse host0 [AnimationFrame 0]
           [AnimationFrame 16; WindowResize 640 480; ImageLoad 1; AnimationFrame 33]
           500 100 eq_refl).
Defined.

(** ** Images that load *)

Section Loading.
Variable p : Script.
Hypothesis T : Tame p.

(** An image that has settled, either way, keeps its status. *)
Lemma dispatch_settled (e : Event) (s : State) (i : nat) (st : ImageStatus) :
  st <> Loading ->
  image_status s i = Some st -> image_status (dispatch p e s) i = Some st.
Proof.
  intros Hst H. unfold image_status in *.
  assert (K : forall j st',
             match nth_error (images s) j with
             | Some img => Image.status img = Loading
             | None => False
             end ->
             option_map Image.status
               (nth_error (over_nth j (Image.set_status st') (images s)) i)
             = Some st).
  { intros j st' Hj. rewrite nth_error_over_nth.
    destruct (Nat.eqb_spec i j) as [->|]; [|assumption].
    destruct (nth_error (images s) j) as [img|]; [|contradiction].
    simpl in H. congruence. }
  destruct e as [t|w h|x y|j|j|ok|d];
    try (rewrite (dispatch_keeps_beside_images p images);
         try reflexivity; try exact I; try assumption; beside T).
  - simpl. destruct (nth_error (images s) j) as [img|] eqn:Ej; [|assumption].
    destruct (Image.status img) eqn:St; try assumption.
    rewrite images_run_handler. apply K. now rewrite Ej.
  - simpl. destruct (nth_error (images s) j) as [img|] eqn:Ej; [|assumption].
    destruct (Image.status img) eqn:St; try assumption.
    rewrite images_run_handler. apply K. now rewrite Ej.
Qed.

Lemma image_load_loads (s : State) (i : nat) :
  image_status s i = Some Loading ->
  image_status (dispatch p (ImageLoad i) s) i = Some Loaded.
Proof.
  unfold image_status. intros H. simpl.
  destruct (nth_error (images s) i) as [img|] eqn:Ei; [|discriminate].
  simpl in H. injection H as ->.
  rewrite images_run_handler. unfold settle_image. cbn [images set_images].
  now rewrite nth_error_over_nth, Nat.eqb_refl, Ei.
Qed.

End Loading.

Lemma loaded_texture_filled (s : State) (i : nat) :
  images_feed s -> image_status s i = Some Loaded -> texture_image s i = Some (Some i).
Proof.
  intros H Hb. unfold image_status, texture_image in *.
  destruct (nth_error (images s) i) as [img|] eqn:Hi; [|discriminate].
  destruct (feeds_texture_there s i img H Hi) as (tx & -> & _ & _ & F).
  simpl in *. injection Hb as Hb. now rewrite F, Hb.
Qed.

(** X2.  On each of the four pages, when an image that was loading loads,
    its [onload] handler gives it to its own texture, and whatever events
    follow, the texture keeps that image. *)
Theorem loaded_image_stays (h : Host) (k : Sample) (es1 es2 : list Event) (i : nat) :
  let s1 := run (script h k) es1 (setup h k) in
  let s2 := run (script h k) (ImageLoad i :: es2) s1 in
  image_status s1 i = Some Loading ->
  image_status s2 i = Some Loaded /\ texture_image s2 i = Some (Some i).
Proof.
  intros s1 s2 H. pose proof (samples_tame h k) as T.
  assert (L : image_status s2 i = Some Loaded).
  { unfold s2. rewrite run_cons.
    apply (run_invariant (script h k) (fun s => image_status s i = Some Loaded)).
    - intros e' s'. apply (dispatch_settled _ T); discriminate.
    - now apply image_load_loads. }
  split; [exact L|]. apply loaded_texture_filled; [|exact L].
  unfold s2, s1. rewrite <- run_app. apply run_images_feed.
Qed.

Lemma loaded_image_stays_witness :
  let p := script host0 PointLightingPage in
  let s1 := run p [AnimationFrame 0; ImageLoad 0] (setup host0 PointLightingPage) in
  let s2 := run p (ImageLoad 2 :: [AnimationFrame 16; ImageError 2; ImageLoad 2]) s1 in
  image_status s1 2 = Some Loading /\
  image_status s2 2 = Some Loaded /\ texture_image s2 2 = Some (Some 2%nat).
Proof.
  cbv zeta. split; [reflexivity|].
  apply (loaded_image_stays host0 PointLightingPage [AnimationFrame 0; ImageLoad 0]
           [AnimationFrame 16; ImageError 2; ImageLoad 2] 2).
  reflexivity.
Defined.

(** ** Listeners and the camera *)

(** X8.  No handler of any page registers a listener: after any sequence
    of events the listeners are those the script registered, [resize] once
    on every page and the mouse-move listener once on the point-lighting
    page; so a resize of the window calls [resize()] exactly once. *)
Theorem listeners_never_grow (h : Host) (k : Sample) (es : list Event) (w h' : number) :
  let s := run (script h k) es (setup h k) in
  listeners s =
    match k with
    | PointLightingPage => [("resize", Resize); ("mousemove", LightFollowsMouse)]
    | _ => [("resize", Resize)]
    end /\
  dispatch (script h k) (WindowResize w h') s
  = resize (script h k) (set_window (Window.mk w h') s).
Proof.
  split.
  - rewrite (run_listeners _ (samples_tame h k)). apply setup_listeners.
  - apply resize_dispatch.
Qed.

Lemma resize_placement (h : Host) (k : Sample) (s : State) :
  placement (camera (resize (script h k) s)) = placement (camera s).
Proof. destruct k; reflexivity. Qed.

Lemma update_placement (h : Host) (k : Sample) (t : number) (s : State) :
  k <> PointLightingPage ->
  placement (camera (update (script h k) t s)) = placement (camera s).
Proof.
  intros Hk. destruct k; try contradiction; try reflexivity.
  - simpl. unfold SortTransparency.update. now rewrite forEach_objects.
  - simpl. unfold Instancing.update.
    change (mesh (requestAnimationFrame Update s)) with (mesh s).
    now destruct (mesh s).
Qed.

(** X7.  [resize()] changes nothing of the camera but the aspect; and on
    the three pages without orbit controls no event moves or turns the
    camera or changes its field of view: it stays as the script placed
    it. *)
Theorem camera_stays_put (h : Host) (k : Sample) (es : list Event) :
  k <> PointLightingPage ->
  (forall s, placement (camera (resize (script h k) s)) = placement (camera s)) /\
  placement (camera (run (script h k) es (setup h k))) =
    match k with
    | SortTransparencyPage => (Some 35, Vec3.mk 0 0 7, Vec3.mk 0 0 (-0.3))
    | _ => (Some 15, Vec3.mk 0 0 15, Vec3.zero)
    end.
Proof.
  intros Hk. split; [apply resize_placement|].
  pose proof (samples_tame h k) as T.
  assert (K : forall e s, placement (camera (dispatch (script h k) e s))
                          = placement (camera s)).
  { intros e s. destruct (frame_event e) eqn:F.
    - destruct e; try discriminate. unfold dispatch.
      rewrite (callbacks_keep _ (fun s => placement (camera s))); [reflexivity|].
      intros t s'. now apply update_placement.
    - apply (dispatch_keeps_between_frames _ (fun s => placement (camera s)));
        try reflexivity; try assumption.
      + apply resize_placement.
      + intros x y s'. f_equal. beside T.
      + intros d s' s'' E. f_equal. beside T. }
  unfold run.
  rewrite (fold_left_keeps (fun s e => dispatch (script h k) e s)
             (fun s => placement (camera s)) (fun a b => K b a)).
  destruct k; try contradiction; reflexivity.
Qed.

Lemma camera_stays_put_witness :
  placement (camera (run (script host0 SortTransparencyPage)
                         [AnimationFrame 16; WindowResize 640 480; AnimationFrame 33]
                         (setup host0 SortTransparencyPage)))
  = (Some 35, Vec3.mk 0 0 7, Vec3.mk 0 0 (-0.3)).
Proof.
  destruct (camera_stays_put host0 SortTransparencyPage
              [AnimationFrame 16; WindowResize 640 480; AnimationFrame 33])
    as [_ W]; [discriminate | exact W].
Defined.

(** ** What the frames add up to *)

Lemma over_nth_app {A : Type} (f : A -> A) (l1 : list A) (a : A) (l2 : list A) :
  over_nth (length l1) f (l1 ++ a :: l2) = l1 ++ f a :: l2.
Proof.
  induction l1 as [|b l1 IH]; simpl; [reflexivity|]. now rewrite IH.
Qed.

(** Going through the references [0 .. n-1] of [n] objects applies [f] to
    each object once. *)
Lemma forEach_all {A : Type} (f : A -> A) (l2 : list A) :
  forall l1,
    fold_left (fun os m => over_nth m f os) (seq (length l1) (length l2)) (l1 ++ l2)
    = l1 ++ map f l2.
Proof.
  induction l2 as [|a l2 IH]; intros l1; simpl; [reflexivity|].
  rewrite over_nth_app.
  replace (l1 ++ f a :: l2) with ((l1 ++ [f a]) ++ l2) by now rewrite <- app_assoc.
  replace (S (length l1)) with (length (l1 ++ [f a])) by (rewrite length_app; simpl; lia).
  rewrite IH. now rewrite <- app_assoc.
Qed.

Lemma iter_map {A : Type} (f : A -> A) (n : nat) (l : list A) :
  map (Nat.iter n f) (map f l) = map (Nat.iter (S n) f) l.
Proof.
  rewrite map_map. apply map_ext. intros a. symmetry. apply Nat.iter_succ_r.
Qed.

Lemma sort_transparency_update_objects (t : number) (s : State) :
  meshes s = seq 0 (length (objects s)) ->
  objects (SortTransparency.update t s) = map SortTransparency.turn (objects s).
Proof.
  intros H. unfold SortTransparency.update. rewrite forEach_objects.
  cbn [objects render set_requests set_scene set_objects requestAnimationFrame set_frames
       meshes].
  rewrite H. apply (forEach_all SortTransparency.turn (objects s) []).
Qed.

Lemma sort_transparency_step (e : Event) (s : State) :
  meshes s = seq 0 (length (objects s)) -> frames s = [Update] ->
  objects (dispatch SortTransparency.script e s)
    = (if frame_event e then map SortTransparency.turn (objects s) else objects s) /\
  meshes (dispatch SortTransparency.script e s)
    = seq 0 (length (objects (dispatch SortTransparency.script e s))).
Proof.
  intros Hm Hf. destruct (frame_event e) eqn:F.
  - destruct e as [t| | | | | |]; try discriminate.
    rewrite dispatch_frame_one by assumption. cbn [update SortTransparency.script].
    rewrite sort_transparency_update_objects by exact Hm.
    split; [reflexivity|]. rewrite length_map.
    transitivity (meshes s); [|exact Hm].
    unfold SortTransparency.update. now rewrite forEach_objects.
  - assert (Eo : objects (dispatch SortTransparency.script e s) = objects s).
    { apply (dispatch_keeps_between_frames SortTransparency.script);
        try reflexivity; try assumption.
      intros d a a' E. now injection E as <-. }
    assert (Em : meshes (dispatch SortTransparency.script e s) = meshes s).
    { apply (dispatch_keeps_between_frames SortTransparency.script);
        try reflexivity; try assumption.
      intros d a a' E. now injection E as <-. }
    now rewrite Eo, Em.
Qed.

(** X3.  On the sorted-transparency page every frame passes each of the
    fifty meshes through the callback of [meshes.forEach] exactly once, and
    nothing else touches a mesh: after any sequence of events each mesh is
    the mesh of the script with that callback applied as many times as
    there were frames. *)
Theorem meshes_turn_once_per_frame (rnd : nat -> number) (w h : number)
        (es : list Event) :
  objects (run SortTransparency.script es (SortTransparency.setup rnd w h)) =
  map (Nat.iter (length (filter frame_event es)) SortTransparency.turn)
      (objects (SortTransparency.setup rnd w h)).
Proof.
  assert (G : forall es s,
             meshes s = seq 0 (length (objects s)) -> frames s = [Update] ->
             objects (run SortTransparency.script es s) =
             map (Nat.iter (length (filter frame_event es)) SortTransparency.turn)
                 (objects s)).
  { clear es. induction es as [|e es IH]; intros s Hm Hf.
    - simpl. symmetry. apply map_id.
    - rewrite run_cons.
      destruct (sort_transparency_step e s Hm Hf) as [Eo Em].
      rewrite IH; [|exact Em|now apply (dispatch_frames _ sort_transparency_tame)].
      rewrite Eo. cbn [filter]. destruct (frame_event e); [|reflexivity].
      apply iter_map. }
  apply G; reflexivity.
Qed.

Lemma point_lighting_step (orbit : Camera.t -> Camera.t) (e : Event) (s : State)
      (m : Mesh.t) :
  objects s = [m] -> frames s = [Update] ->
  objects (dispatch (PointLighting.script orbit) e s)
  = [if frame_event e then spin m else m].
Proof.
  intros Ho Hf. destruct (frame_event e) eqn:F.
  - destruct e as [t| | | | | |]; try discriminate.
    rewrite dispatch_frame_one by assumption. cbn [update PointLighting.script].
    unfold PointLighting.update.
    cbn [objects render set_requests set_camera set_uniform set_uniforms over_object
         set_objects requestAnimationFrame set_frames].
    now rewrite Ho.
  - rewrite <- Ho. apply (dispatch_keeps_between_frames (PointLighting.script orbit));
      try reflexivity; try assumption.
    intros d a a' E. now injection E as <-.
Qed.

(** X10.  On the point-lighting page the globe only spins: after any
    sequence of events the page's one mesh is the mesh as constructed,
    turned about y by [0.005] once for every frame; it is never moved,
    scaled or tilted. *)
Theorem globe_only_spins (h : Host) (es : list Event) :
  objects (run (script h PointLightingPage) es (setup h PointLightingPage)) =
  [Nat.iter (length (filter frame_event es)) spin (Mesh.create 0)].
Proof.
  assert (G : forall es s m,
             objects s = [m] -> frames s = [Update] ->
             objects (run (script h PointLightingPage) es s) =
             [Nat.iter (length (filter frame_event es)) spin m]).
  { clear es. induction es as [|e es IH]; intros s m Ho Hf; [exact Ho|].
    rewrite run_cons.
    rewrite (IH _ (if frame_event e then spin m else m)).
    - cbn [filter]. destruct (frame_event e); [|reflexivity].
      cbn [length]. now rewrite Nat.iter_succ_r.
    - now apply point_lighting_step.
    - now apply (dispatch_frames _ (samples_tame h PointLightingPage)). }
  apply G; reflexivity.
Qed.

(** ** The time uniform *)

Lemma clock_update (h : Host) (k : Sample) (name : string) (f : number -> number)
      (t : number) (s : State) :
  clock k = Some (name, f) -> uniform name s <> None ->
  uniform name (update (script h k) t s) = Some (UNumber (f t)).
Proof.
  intros Hc Hp. destruct k; try discriminate; injection Hc as <- <-;
    cbn [update script PointLighting.script IndexedVsNonIndexed.script Instancing.script].
  - unfold PointLighting.update.
    change (uniform "u_dt" (render ?a)) with (uniform "u_dt" a).
    change (uniform "u_dt" (set_camera ?c ?a)) with (uniform "u_dt" a).
    now apply uniform_set_same.
  - unfold IndexedVsNonIndexed.update.
    change (uniform "uTime" (render ?a)) with (uniform "uTime" a).
    now apply uniform_set_same.
  - unfold Instancing.update.
    change (mesh (requestAnimationFrame Update s)) with (mesh s).
    change (uniform "uTime" (render ?a)) with (uniform "uTime" a).
    apply uniform_set_same. now destruct (mesh s).
Qed.

Lemma clock_kept (h : Host) (k : Sample) (name : string) (f : number -> number)
      (e : Event) (s : State) :
  clock k = Some (name, f) -> frame_event e = false ->
  uniform name (dispatch (script h k) e s) = uniform name s.
Proof.
  intros Hc He. pose proof (samples_tame h k) as T.
  apply (dispatch_keeps_between_frames (script h k) (uniform name));
    try reflexivity; try assumption.
  - intros a. destruct k; reflexivity.
  - intros x y a. destruct k; try reflexivity.
    injection Hc as <- <-. cbn [mousemove script PointLighting.script].
    unfold PointLighting.mousemove. now rewrite uniform_set_other by discriminate.
  - intros d a a' E. unfold uniform.
    assert (Eu : uniforms a' = uniforms a) by beside T. now rewrite Eu.
Qed.

Lemma clock_present (h : Host) (k : Sample) (name : string) (f : number -> number)
      (es : list Event) :
  clock k = Some (name, f) ->
  uniform name (run (script h k) es (setup h k)) <> None.
Proof.
  intros Hc. induction es as [|e es IH] using rev_ind.
  - destruct k; try discriminate; injection Hc as <- <-; discriminate.
  - rewrite run_app, run_one. destruct (frame_event e) eqn:F.
    + destruct e as [t| | | | | |]; try discriminate.
      rewrite dispatch_frame_one
        by (apply (run_frames _ (samples_tame h k)), setup_frames).
      rewrite (clock_update h k name f) by (try assumption; exact IH). discriminate.
    + now rewrite (clock_kept h k name f).
Qed.

(** X6.  On the three pages that pass the time to their shader, the time
    uniform holds what the callback computes from the timestamp of the last
    frame ([t * 0.001], on the point-lighting page [-dt * 0.00002]) and
    nothing of earlier frames; events that are not frames leave it alone. *)
Theorem clock_shows_last_frame (h : Host) (k : Sample) (name : string)
        (f : number -> number) (es1 es2 : list Event) (t : number) :
  clock k = Some (name, f) ->
  forallb (fun e => negb (frame_event e)) es2 = true ->
  uniform name (run (script h k) (AnimationFrame t :: es2)
                    (run (script h k) es1 (setup h k)))
  = Some (UNumber (f t)).
Proof.
  intros Hc H. rewrite run_cons.
  assert (K : forall es s,
             forallb (fun e => negb (frame_event e)) es = true ->
             uniform name (run (script h k) es s) = uniform name s).
  { induction es as [|e es IH]; intros s He; [reflexivity|].
    simpl in He. apply andb_prop in He. destruct He as [He Hes].
    rewrite run_cons, IH by assumption.
    apply (clock_kept h k name f); [assumption|]. now destruct (frame_event e). }
  rewrite K by assumption.
  rewrite dispatch_frame_one by (apply (run_frames _ (samples_tame h k)), setup_frames).
  apply (clock_update h k name f); [assumption|].
  change (uniform name (set_frames [] ?a)) with (uniform name a).
  now apply (clock_present h k name f).
Qed.

Lemma clock_shows_last_frame_witness :
  let es2 := [DocumentMouseMove 3 4; WindowResize 640 480] in
  clock PointLightingPage = Some ("u_dt", fun dt => (- dt) * 0.00002) /\
  forallb (fun e => negb (frame_event e)) es2 = true /\
  uniform "u_dt"
    (run (script host0 PointLightingPage) (AnimationFrame 1000 :: es2)
         (run (script host0 PointLightingPage) [AnimationFrame 16; AnimationFrame 33]
              (setup host0 PointLightingPage)))
  = Some (UNumber ((- 1000) * 0.00002)).
Proof.
  cbv zeta. split; [reflexivity|]. split; [reflexivity|].
  exact (clock_shows_last_frame host0 PointLightingPage "u_dt"
           (fun dt => (- dt) * 0.00002) [AnimationFrame 16; AnimationFrame 33]
           [DocumentMouseMove 3 4; WindowResize 640 480] 1000 eq_refl eq_refl).
Defined.

(** ** The instanced model *)

(** The loop of [loadModel], in closed form. *)
Lemma loop_closed (rnd : nat -> number) :
  fold_left (Instancing.fill rnd) (seq 0 Instancing.num)
            (Some (Float32Array_zeros (Instancing.num * 3),
                   Float32Array_zeros (Instancing.num * 3)))
  = Some (instance_offsets rnd, instance_randoms rnd).
Proof. reflexivity. Qed.

Lemma loadModel_resume_closed (rnd : nat -> number) (data : ModelData.t) (s : State) :
  Instancing.loadModel_resume rnd data s =
  Some (setParent (length (objects s))
          (set_mesh (Some (length (objects s)))
             (set_objects (objects s ++ [Mesh.create (length (geometries s))])
                (set_geometries (geometries s ++ [model_geometry rnd data]) s)))).
Proof.
  unfold Instancing.loadModel_resume. rewrite loop_closed. reflexivity.
Qed.

(** X4.  Given the parsed model, [loadModel] does not throw, and the
    geometry it constructs carries exactly twenty instances: instance [i]
    has as its offset the three numbers [Math.random() * 2 - 1] of draws
    [6 i .. 6 i + 2] and as its random triple the draws [6 i + 3 .. 6 i + 5],
    each rounded to binary32; there is no instance 20. *)
Theorem instances_filled (rnd : nat -> number) (data : ModelData.t) (s : State)
        (i : nat) :
  (i < Instancing.num)%nat ->
  exists s' g,
    Instancing.loadModel_resume rnd data s = Some s' /\
    nth_error (geometries s') (length (geometries s)) = Some g /\
    vertex g "offset" i =
      Some (map fround [rnd (6 * i + 0)%nat * 2 - 1; rnd (6 * i + 1)%nat * 2 - 1;
                        rnd (6 * i + 2)%nat * 2 - 1]) /\
    vertex g "random" i =
      Some (map fround [rnd (6 * i + 3)%nat; rnd (6 * i + 4)%nat; rnd (6 * i + 5)%nat]) /\
    vertex g "offset" Instancing.num = None /\
    vertex g "random" Instancing.num = None.
Proof.
  intros Hi. eexists. exists (model_geometry rnd data).
  split; [apply loadModel_resume_closed|].
  split.
  { cbn [geometries setParent set_scene set_mesh set_objects set_geometries].
    rewrite nth_error_app2 by lia. now rewrite Nat.sub_diag. }
  unfold Instancing.num in Hi.
  do 20 (destruct i as [|i]; [repeat split|]).
  lia.
Qed.

Lemma instances_filled_witness :
  exists s' g,
    Instancing.loadModel_resume (rnd host0) (ModelData.mk [0; 1; 0] [0.5; 0.5] [0; 0; 1])
                                (setup host0 InstancingPage) = Some s' /\
    nth_error (geometries s') (length (geometries (setup host0 InstancingPage))) = Some g /\
    vertex g "offset" 7 =
      Some (map fround [rnd host0 (6 * 7 + 0)%nat * 2 - 1;
                        rnd host0 (6 * 7 + 1)%nat * 2 - 1;
                        rnd host0 (6 * 7 + 2)%nat * 2 - 1]) /\
    vertex g "random" 7 =
      Some (map fround [rnd host0 (6 * 7 + 3)%nat; rnd host0 (6 * 7 + 4)%nat;
                        rnd host0 (6 * 7 + 5)%nat]) /\
    vertex g "offset" Instancing.num = None /\
    vertex g "random" Instancing.num = None.
Proof.
  apply (instances_filled (rnd host0) (ModelData.mk [0; 1; 0] [0.5; 0.5] [0; 0; 1])
           (setup host0 InstancingPage) 7).
  unfold Instancing.num. lia.
Defined.

(** X5.  The instancing page never holds more than one instanced mesh and
    one geometry: after any sequence of events, either [loadModel] has run
    to its end and [mesh] is the one mesh, attached to the scene, or there
    is no mesh, no geometry and nothing under the scene. *)
Theorem at_most_one_model (h : Host) (es : list Event) :
  let s := run (script h InstancingPage) es (setup h InstancingPage) in
  (length (objects s) <= 1)%nat /\ (length (geometries s) <= 1)%nat /\
  (loading s = Fulfilled /\ mesh s = Some 0%nat /\ length (objects s) = 1%nat /\
   Transform.children (scene s) = [0%nat]
   \/ loading s <> Fulfilled /\ loading s <> NotCalled /\ model_absent s).
Proof.
  intros s. pose proof (run_model_state h es) as M. fold s in M.
  unfold model_state in M.
  destruct (loading s) eqn:E; try contradiction;
    try (destruct M as (Hm & Ho & Hc & Hg); rewrite Ho, Hg;
         repeat split; try (simpl; lia);
         right; repeat split; try assumption; discriminate).
  destruct M as (Hm & Ho & Hg & Hc). rewrite Ho, Hg. repeat split; try lia.
  left. now repeat split.
Qed.

Lemma dispatch_loading_settled_image (p : Script) (i : nat) (s : State) :
  loading (dispatch p (ImageLoad i) s) = loading s.
Proof.
  simpl. destruct (nth_error (images s) i) as [img|]; [|reflexivity].
  destruct (Image.status img); try reflexivity.
  now destruct (Image.onload img) as [[tx]|].
Qed.

(** X9.  On the instancing page the texture image and the model may arrive
    in either order: from any state, the image loading and then the body
    of the model settling leaves the page as the other order does. *)
Theorem arrivals_commute (rnd : nat -> number) (s : State) (i : nat)
        (d : option ModelData.t) :
  dispatch (Instancing.script rnd) (ImageLoad i)
           (dispatch (Instancing.script rnd) (JsonSettled d) s) =
  dispatch (Instancing.script rnd) (JsonSettled d)
           (dispatch (Instancing.script rnd) (ImageLoad i) s).
Proof.
  assert (Ei : images (dispatch (Instancing.script rnd) (JsonSettled d) s) = images s).
  { unfold dispatch. cbn [loadModel_resume Instancing.script].
    destruct (loading s); try reflexivity. destruct d as [d|]; [|reflexivity].
    now rewrite loadModel_resume_closed. }
  assert (El : loading (dispatch (Instancing.script rnd) (ImageLoad i) s) = loading s).
  { apply (dispatch_loading_settled_image (Instancing.script rnd)). }
  unfold dispatch at 1 3. cbn [loadModel_resume Instancing.script].
  rewrite Ei, El.
  unfold dispatch. cbn [loadModel_resume Instancing.script].
  destruct (nth_error (images s) i) as [img|]; [|reflexivity].
  destruct (Image.status img); try reflexivity.
  destruct (loading s); try reflexivity.
  destruct d as [d|]; [|now destruct (Image.onload img) as [[tx]|]].
  rewrite !loadModel_resume_closed.
  now destruct (Image.onload img) as [[tx]|].
Qed.

Lemma instancing_step (rnd : nat -> number) (e : Event) (s : State) (m : Mesh.t) :
  objects s = [m] -> mesh s = Some 0%nat -> loading s = Fulfilled ->
  frames s = [Update] ->
  objects (dispatch (Instancing.script rnd) e s)
    = [if frame_event e then spin_back m else m] /\
  mesh (dispatch (Instancing.script rnd) e s) = Some 0%nat /\
  loading (dispatch (Instancing.script rnd) e s) = Fulfilled.
Proof.
  intros Ho Hm Hl Hf. destruct e as [t|w h|x y|i|i|ok|d].
  - rewrite dispatch_frame_one by assumption. cbn [update Instancing.script].
    unfold Instancing.update.
    change (mesh (requestAnimationFrame Update (set_frames [] s))) with (mesh s).
    rewrite Hm.
    cbn [objects mesh loading render set_requests set_uniform set_uniforms over_object
         set_objects requestAnimationFrame set_frames frame_event].
    now rewrite Ho.
  - unfold dispatch. cbn [frame_event].
    pose proof (fire_keeps (Instancing.script rnd)
                  (fun s => (objects s, mesh s, loading s))
                  (fun a => eq_refl) (fun x y a => eq_refl) "resize"
                  (WindowResize w h) (set_window (Window.mk w h) s)) as K.
    injection K as -> -> ->; auto.
  - unfold dispatch. cbn [frame_event].
    pose proof (fire_keeps (Instancing.script rnd)
                  (fun s => (objects s, mesh s, loading s))
                  (fun a => eq_refl) (fun x y a => eq_refl) "mousemove"
                  (DocumentMouseMove x y) s) as K.
    injection K as -> -> ->; auto.
  - unfold dispatch. cbn [frame_event].
    destruct (nth_error (images s) i) as [img|]; [|auto].
    destruct (Image.status img); auto.
    destruct (Image.onload img) as [[tx]|]; auto.
  - unfold dispatch. cbn [frame_event].
    destruct (nth_error (images s) i) as [img|]; [|auto].
    destruct (Image.status img); auto.
    destruct (Image.onerror img) as [[tx]|]; auto.
  - unfold dispatch. rewrite Hl. auto.
  - unfold dispatch. rewrite Hl. auto.
Qed.

(** X12.  On the instancing page the mesh counts only the frames after its
    arrival: when the body of the model settles while [loadModel] awaits it,
    then after any further events the page's one mesh is a fresh mesh turned
    about y by [-0.005] once for every frame since, however many frames went
    before. *)
Theorem model_turns_since_arrival (h : Host) (data : ModelData.t)
        (es1 es2 : list Event) :
  let p := script h InstancingPage in
  let s1 := run p es1 (setup h InstancingPage) in
  loading s1 = AwaitingJson ->
  objects (run p (JsonSettled (Some data) :: es2) s1) =
  [Nat.iter (length (filter frame_event es2)) spin_back (Mesh.create 0)].
Proof.
  intros p s1 Hl.
  assert (G : forall es s m,
             objects s = [m] -> mesh s = Some 0%nat -> loading s = Fulfilled ->
             frames s = [Update] ->
             objects (run p es s) =
             [Nat.iter (length (filter frame_event es)) spin_back m]).
  { induction es as [|e es IH]; intros s m Ho Hm Hld Hf; [exact Ho|].
    rewrite run_cons.
    destruct (instancing_step (rnd h) e s m Ho Hm Hld Hf) as (Eo & Em & El).
    rewrite (IH _ (if frame_event e then spin_back m else m)); try assumption.
    - cbn [filter]. destruct (frame_event e); [|reflexivity].
      cbn [length]. now rewrite Nat.iter_succ_r.
    - now apply (dispatch_frames _ (samples_tame h InstancingPage)). }
  pose proof (run_model_state h es1) as M. fold p s1 in M.
  unfold model_state in M. rewrite Hl in M. destruct M as (Hm & Ho & Hc & Hg).
  assert (F1 : frames s1 = [Update])
    by (apply (run_frames _ (samples_tame h InstancingPage)), setup_frames).
  rewrite run_cons. unfold p at 2. rewrite dispatch_json by exact Hl.
  cbn [loadModel_resume script Instancing.script].
  rewrite loadModel_resume_closed.
  apply G.
  - cbn [objects set_loading setParent set_scene set_mesh set_objects]. now rewrite Ho, Hg.
  - cbn [mesh set_loading setParent set_scene set_mesh]. now rewrite Ho.
  - reflexivity.
  - exact F1.
Qed.

Lemma model_turns_since_arrival_witness :
  let p := script host0 InstancingPage in
  let s1 := run p [AnimationFrame 0; FetchSettled true; AnimationFrame 16]
                (setup host0 InstancingPage) in
  loading s1 = AwaitingJson /\
  objects (run p (JsonSettled (Some (ModelData.mk [0; 1; 0] [0.5; 0.5] [0; 0; 1]))
                    :: [AnimationFrame 33; WindowResize 640 480; AnimationFrame 50]) s1) =
  [Nat.iter 2 spin_back (Mesh.create 0)].
Proof.
  cbv zeta. split; [reflexivity|].
  apply (model_turns_since_arrival host0 (ModelData.mk [0; 1; 0] [0.5; 0.5] [0; 0; 1])
           [AnimationFrame 0; FetchSettled true; AnimationFrame 16]
           [AnimationFrame 33; WindowResize 640 480; AnimationFrame 50]).
  reflexivity.
Defined.

(** X11.  On the indexed against non-indexed page no event touches a mesh:
    after any sequence of events the two quads are as the script placed
    them, the indexed one at height [0.9] and the other at [-0.9]. *)
Theorem quads_stay (h : Host) (es : list Event) :
  objects (run (script h IndexedPage) es (setup h IndexedPage)) =
  [Mesh.over_position (Vec3.over_y (fun _ => 0.9)) (Mesh.create 0);
   Mesh.over_position (Vec3.over_y (fun _ => -0.9)) (Mesh.create 1)].
Proof.
  unfold run. rewrite (fold_left_keeps _ objects); [reflexivity|].
  intros s e. destruct (frame_event e) eqn:F.
  - destruct e; try discriminate. unfold dispatch.
    now rewrite (callbacks_keep _ objects).
  - apply (dispatch_keeps_between_frames (script h IndexedPage));
      try reflexivity; try assumption.
    intros d a a' E. now injection E as <-.
Qed.
